(** * Todo list: deadline evaluation, task filtering, submission and scheduler start-up

    A shallow embedding of [todolist_streamlit.py] and the properties of its
    deadline evaluator ([check_deadlines]), its filter selector
    ([filter_tasks]), the new-task form handler of [main] and the scheduler
    guard ([init_scheduler]). *)

From Stdlib Require Import ZArith String Ascii List Bool Lia.
From stdpp Require Import base option list gmap strings.
Import ListNotations.

Local Open Scope Z_scope.

(** ** Time

    A naive local [datetime] is the number of microseconds since
    1970-01-01 00:00:00; a [timedelta] is a number of microseconds.  Python
    compares and subtracts both exactly, and the years 1..9999 leave no room
    for an overflow, so [Z] arithmetic is the arithmetic of the source. *)

Module Time.

Definition datetime := Z.
Definition timedelta := Z.

Definition MICROS_PER_MINUTE : Z := 60000000.
Definition MINUTES_PER_DAY : Z := 1440.

(** [timedelta(minutes=m)] and [timedelta(days=d)]. *)
Definition timedelta_minutes (m : Z) : timedelta := m * MICROS_PER_MINUTE.
Definition timedelta_days (d : Z) : timedelta := d * MINUTES_PER_DAY * MICROS_PER_MINUTE.

(** Days from 1970-01-01 to the proleptic Gregorian date [y]-[m]-[d]. *)
Definition days_from_civil (y m d : Z) : Z :=
  let y' := if m <=? 2 then y - 1 else y in
  let era := y' / 400 in
  let yoe := y' - era * 400 in
  let doy := (153 * (if 2 <? m then m - 3 else m + 9) + 2) / 5 + d - 1 in
  let doe := yoe * 365 + yoe / 4 - yoe / 100 + doy in
  era * 146097 + doe - 719468.

(** The inverse: year, month and day of a day count. *)
Definition civil_from_days (days : Z) : Z * Z * Z :=
  let z := days + 719468 in
  let era := z / 146097 in
  let doe := z - era * 146097 in
  let yoe := (doe - doe / 1460 + doe / 36524 - doe / 146096) / 365 in
  let doy := doe - (365 * yoe + yoe / 4 - yoe / 100) in
  let mp := (5 * doy + 2) / 153 in
  let d := doy - (153 * mp + 2) / 5 + 1 in
  let m := if mp <? 10 then mp + 3 else mp - 9 in
  ((if m <=? 2 then yoe + era * 400 + 1 else yoe + era * 400), m, d).

(** [datetime(y, m, d, H, M)]. *)
Definition mk_datetime (y m d H M : Z) : datetime :=
  ((days_from_civil y m d * 24 + H) * 60 + M) * MICROS_PER_MINUTE.

(** [datetime(1970, 1, 1)], the default of the [notify_time] column. *)
Definition EPOCH : datetime := mk_datetime 1970 1 1 0 0.

(** [datetime.combine(date, time)]: a date is a day count, a time of day a
    number of microseconds since midnight. *)
Definition combine (date time : Z) : datetime :=
  date * MINUTES_PER_DAY * MICROS_PER_MINUTE + time.

Definition is_leap (y : Z) : bool :=
  (y mod 4 =? 0) && (negb (y mod 100 =? 0) || (y mod 400 =? 0)).

Definition days_in_month (y m : Z) : Z :=
  if m =? 2 then (if is_leap y then 29 else 28)
  else if (m =? 4) || (m =? 6) || (m =? 9) || (m =? 11) then 30 else 31.

(** *** The format ['%Y-%m-%d %H:%M'] in its zero-padded form

    [strptime] and [strftime] belong to Python's library; the program is
    modelled over any parser and any formatter (see the sections below).
    These two are the instance used to run the model on concrete stores: the
    sixteen-character, zero-padded form that [strftime] writes. *)

Definition digit (c : ascii) : option Z :=
  let n := Z.of_N (N_of_ascii c) in
  if (48 <=? n) && (n <=? 57) then Some (n - 48) else None.

Fixpoint number (acc : Z) (cs : list ascii) : option Z :=
  match cs with
  | [] => Some acc
  | c :: cs' => d ← digit c; number (acc * 10 + d) cs'
  end.

Definition strptime_padded (s : string) : option datetime :=
  match list_ascii_of_string s with
  | [y1; y2; y3; y4; s1; m1; m2; s2; d1; d2; s3; h1; h2; s4; n1; n2] =>
      if Ascii.eqb s1 "-"%char && Ascii.eqb s2 "-"%char
         && Ascii.eqb s3 " "%char && Ascii.eqb s4 ":"%char
      then
        y ← number 0 [y1; y2; y3; y4];
        m ← number 0 [m1; m2];
        d ← number 0 [d1; d2];
        H ← number 0 [h1; h2];
        M ← number 0 [n1; n2];
        if (1 <=? y) && (1 <=? m) && (m <=? 12) && (1 <=? d) && (d <=? days_in_month y m)
           && (H <=? 23) && (M <=? 59)
        then Some (mk_datetime y m d H M) else None
      else None
  | _ => None
  end.

Definition digit_char (n : Z) : ascii := ascii_of_N (Z.to_N (48 + n mod 10)).

Definition pad2 (n : Z) : string :=
  String (digit_char (n / 10)) (String (digit_char n) EmptyString).

Definition pad4 (n : Z) : string :=
  String (digit_char (n / 1000)) (String (digit_char (n / 100)) (pad2 n)).

Definition strftime_padded (t : datetime) : string :=
  let minutes := t / MICROS_PER_MINUTE in
  let '(y, m, d) := civil_from_days (minutes / MINUTES_PER_DAY) in
  let mod_day := minutes mod MINUTES_PER_DAY in
  pad4 y +:+ "-" +:+ pad2 m +:+ "-" +:+ pad2 d +:+ " "
    +:+ pad2 (mod_day / 60) +:+ ":" +:+ pad2 (mod_day mod 60).

End Time.

Import Time.

(** ** Tasks and the task store

    A row of the [tasks] table, in the column order of the [SELECT] of
    [get_tasks], which is the order in which the program unpacks it.
    [completed] is an SQLite integer. *)

Record Task := mkTask {
  task_id : Z;
  name : string;
  deadline : string;
  notify_time : string;
  assigned_by : string;
  designation : string;
  priority : string;
  completed : Z
}.

(** The table in retrieval order, and the last key that [AUTOINCREMENT]
    handed out. *)
Record DB := mkDB {
  rows : list Task;
  seq : Z
}.

Definition add_task (name deadline notify_time assigned_by designation priority : string)
    (db : DB) : DB :=
  let rowid := seq db + 1 in
  {| rows := rows db ++ [mkTask rowid name deadline notify_time assigned_by designation priority 0];
     seq := rowid |}.

Definition get_tasks (db : DB) : list Task := rows db.

Definition update_task (id : Z) (name deadline notify_time assigned_by designation priority : string)
    (completed : Z) (db : DB) : DB :=
  {| rows := map (fun row =>
                    if task_id row =? id
                    then mkTask id name deadline notify_time assigned_by designation priority completed
                    else row) (rows db);
     seq := seq db |}.

Definition delete_task (id : Z) (db : DB) : DB :=
  {| rows := List.filter (fun row => negb (task_id row =? id)) (rows db);
     seq := seq db |}.

(** Python's truth value of an integer: [if completed:], [not task[7]]. *)
Definition truthy (n : Z) : bool := negb (n =? 0).

(** ** Effects and exceptions

    What the program does to its collaborators: a call of the notification
    sink, and the calls of the presentation layer. *)

Inductive Effect :=
  | Notify (title message : string) (timeout : Z)
  | StInfo (body : string)
  | StWarning (body : string)
  | StError (body : string)
  | StSuccess (body : string)
  | StRerun.

Inductive Exn :=
  | ValueError (data : string)
  | NotifyError (title message : string).

Inductive Outcome (A : Type) :=
  | Returned (a : A)
  | Raised (e : Exn).
Arguments Returned {A} a.
Arguments Raised {A} e.

#[global] Instance outcome_ret : MRet Outcome := fun A a => Returned a.
#[global] Instance outcome_bind : MBind Outcome := fun A B f o =>
  match o with
  | Returned a => f a
  | Raised e => Raised e
  end.

(** A computation with effects: it extends the trace of the effects performed
    so far, and returns or raises. *)
Definition Pass (A : Type) : Type := list Effect -> list Effect * Outcome A.

#[global] Instance pass_ret : MRet Pass := fun A a tr => (tr, Returned a).
#[global] Instance pass_bind : MBind Pass := fun A B f m tr =>
  match m tr with
  | (tr', Returned a) => f a tr'
  | (tr', Raised e) => (tr', Raised e)
  end.

Definition run {A} (m : Pass A) (tr : list Effect) : list Effect * Outcome A := m tr.

Definition lift {A} (o : Outcome A) : Pass A := fun tr => (tr, o).

Definition perform (e : Effect) : Pass unit := fun tr => (tr ++ [e], Returned ()).

Definition st_info (body : string) : Pass unit := perform (StInfo body).
Definition st_warning (body : string) : Pass unit := perform (StWarning body).

(** [for x in l: body(x)]. *)
Fixpoint for_each {A} (body : A -> Pass unit) (l : list A) : Pass unit :=
  match l with
  | [] => mret ()
  | x :: l' => body x;; for_each body l'
  end.

(** The titles by which the three kinds of reminder are told apart. *)
Definition TITLE_NOTIFICATION : string := "Task Notification".
Definition TITLE_OVERDUE : string := "Task Overdue!".
Definition TITLE_APPROACHING : string := "Task Deadline Approaching".

Definition is_notify_titled (title : string) (e : Effect) : bool :=
  match e with
  | Notify title' _ _ => String.eqb title' title
  | _ => false
  end.

(** The number of calls of the sink under a title. *)
Definition count_events (title : string) (tr : list Effect) : nat :=
  length (List.filter (is_notify_titled title) tr).

(** ** The deadline evaluator and the filter selector *)

Section Evaluator.

(** [datetime.strptime(_, DATETIME_FORMAT)]: [None] is its [ValueError]. *)
Variable strptime : string -> option datetime.

(** The notification sink: whether [notification.notify] raises on a call,
    given what has been performed before it. *)
Variable sink_raises : list Effect -> string -> string -> bool.

Definition parse (data : string) : Outcome datetime :=
  match strptime data with
  | Some dt => Returned dt
  | None => Raised (ValueError data)
  end.

Definition notification_notify (title message : string) (timeout : Z) : Pass unit :=
  fun tr =>
    if sink_raises tr title message
    then (tr, Raised (NotifyError title message))
    else (tr ++ [Notify title message timeout], Returned ()).

(** The body of the loop of [check_deadlines]. *)
Definition check_task (now : datetime) (task : Task) : Pass unit :=
  let name := name task in
  if truthy (completed task) then mret ()
  else
    deadline_dt ← lift (parse (deadline task));
    notify_dt ← lift (parse (notify_time task));
    (if (now >=? notify_dt) && (notify_dt >? EPOCH) then
       notification_notify "Task Notification"
         ("Task '" +:+ name +:+ "' notification time reached!") 10;;
       st_info ("Task '" +:+ name +:+ "' notification time reached!")
     else mret ());;
    if deadline_dt <? now then
      notification_notify "Task Overdue!" ("Task '" +:+ name +:+ "' is overdue!") 10;;
      st_warning ("Task '" +:+ name +:+ "' is overdue!")
    else if deadline_dt - now <? timedelta_minutes 30 then
      notification_notify "Task Deadline Approaching"
        ("Task '" +:+ name +:+ "' deadline is approaching!") 10;;
      st_info ("Task '" +:+ name +:+ "' deadline is approaching!")
    else mret ().

(** [check_deadlines], on the snapshot [get_tasks()] and the clock reading
    [datetime.now()] it starts with. *)
Definition check_deadlines (now : datetime) (tasks : list Task) : Pass unit :=
  for_each (check_task now) tasks.

(** The loop of the nearest-deadline branch of [filter_tasks]. *)
Fixpoint nearest_loop (now : datetime) (tasks filtered : list Task) : Outcome (list Task) :=
  match tasks with
  | [] => Returned filtered
  | task :: rest =>
      if negb (truthy (completed task)) then
        deadline_dt ← parse (deadline task);
        if deadline_dt - now <? timedelta_days 1
        then nearest_loop now rest (filtered ++ [task])
        else nearest_loop now rest filtered
      else nearest_loop now rest filtered
  end.

Definition filter_tasks (now : datetime) (tasks : list Task) (filter_option : string)
    : Outcome (list Task) :=
  if String.eqb filter_option "View Completed Tasks" then
    Returned (List.filter (fun task => completed task =? 1) tasks)
  else if String.eqb filter_option "View Nearest Deadline Tasks (within 1 day)" then
    nearest_loop now tasks []
  else Returned tasks.

End Evaluator.

(** ** The new-task form of [main] *)

(** The fields of [add_task_form] at submission; the two dates are day
    counts and the two times of day microseconds since midnight. *)
Record Form := mkForm {
  form_name : string;
  form_assigned_by : string;
  form_designation : string;
  form_priority : string;
  deadline_date : Z;
  deadline_time : Z;
  notify_date : Z;
  notify_time_val : Z
}.

Section Submission.

(** [datetime.strftime(DATETIME_FORMAT)]. *)
Variable strftime : datetime -> string.

(** The [if submitted:] block of [main]: the store after it, and what it
    shows. *)
Definition on_submit (now : datetime) (form : Form) (db : DB) : DB * list Effect :=
  if String.eqb (form_name form) "" then
    (db, [StError "Please enter a task name!"])
  else if String.eqb (form_assigned_by form) "" then
    (db, [StError "Please enter the name of the person who assigned the task!"])
  else if String.eqb (form_designation form) "" then
    (db, [StError "Please enter the designation of the person!"])
  else
    let deadline_dt := combine (deadline_date form) (deadline_time form) in
    let notify_dt := combine (notify_date form) (notify_time_val form) in
    if (deadline_dt <? now) || (notify_dt <? now) then
      (db, [StError "Date is invalid. You cannot select past dates for deadline or notify time."])
    else
      let deadline_str := strftime deadline_dt in
      let notify_str := strftime notify_dt in
      (add_task (form_name form) deadline_str notify_str
         (form_assigned_by form) (form_designation form) (form_priority form) db,
       [StSuccess "Task added successfully!"; StRerun]).

End Submission.

(** ** The periodic trigger

    A process hosts any number of user sessions; [st.session_state] is the
    dictionary of the session that runs the script.  A started
    [BackgroundScheduler] lives until the process exits. *)

Inductive JobFunc := CheckDeadlines.

Record Job := mkJob {
  job_func : JobFunc;
  interval_minutes : Z
}.

Record Scheduler := mkScheduler {
  jobs : list Job;
  running : bool
}.

Record Process := mkProcess {
  schedulers : list Scheduler;
  session_states : gmap nat (gmap string bool)
}.

Definition fresh_process : Process := mkProcess [] ∅.

(** [st.session_state] as the session [sid] sees it. *)
Definition session_state (sid : nat) (p : Process) : gmap string bool :=
  default ∅ (session_states p !! sid).

(** [init_scheduler], run by the script of session [sid]. *)
Definition init_scheduler (sid : nat) (p : Process) : Process :=
  if bool_decide (session_state sid p !! "scheduler_started" = None) then
    let scheduler := mkScheduler [mkJob CheckDeadlines 1] true in
    {| schedulers := schedulers p ++ [scheduler];
       session_states :=
         <[sid := <["scheduler_started" := true]> (session_state sid p)]> (session_states p) |}
  else p.

(** The recurring triggers that are active: the jobs of the running
    schedulers. *)
Definition active_triggers (p : Process) : nat :=
  length (flat_map jobs (List.filter running (schedulers p))).

(** The sessions whose script runs [init_scheduler], in the order given. *)
Definition init_all (sids : list nat) (p : Process) : Process :=
  foldl (fun p sid => init_scheduler sid p) p sids.

(** ** The events of the contract

    A reminder is a call of the sink followed by the line shown in the page;
    these are the three reminders of a task named [name], and the reminders
    that the contract of the evaluator asks for, as functions of the clock
    and of the two parsed timestamps. *)

Definition notification_event (name : string) : list Effect :=
  [Notify TITLE_NOTIFICATION ("Task '" +:+ name +:+ "' notification time reached!") 10;
   StInfo ("Task '" +:+ name +:+ "' notification time reached!")].

Definition overdue_event (name : string) : list Effect :=
  [Notify TITLE_OVERDUE ("Task '" +:+ name +:+ "' is overdue!") 10;
   StWarning ("Task '" +:+ name +:+ "' is overdue!")].

Definition approaching_event (name : string) : list Effect :=
  [Notify TITLE_APPROACHING ("Task '" +:+ name +:+ "' deadline is approaching!") 10;
   StInfo ("Task '" +:+ name +:+ "' deadline is approaching!")].

Definition notify_time_reached (now notify_dt : datetime) : bool :=
  (notify_dt <=? now) && (EPOCH <? notify_dt).

Definition notification_part (now notify_dt : datetime) (name : string) : list Effect :=
  if notify_time_reached now notify_dt then notification_event name else [].

Definition deadline_part (now deadline_dt : datetime) (name : string) : list Effect :=
  if deadline_dt <? now then overdue_event name
  else if deadline_dt - now <? timedelta_minutes 30 then approaching_event name
  else [].

Definition contract_events (now notify_dt deadline_dt : datetime) (name : string) : list Effect :=
  notification_part now notify_dt name ++ deadline_part now deadline_dt name.

(** The nearest-deadline view, task by task: incomplete, and a deadline that
    reads as less than a day after [now]. *)
Definition due_within_day (strptime : string -> option datetime) (now : datetime)
    (task : Task) : bool :=
  match strptime (deadline task) with
  | Some deadline_dt => deadline_dt - now <? timedelta_days 1
  | None => false
  end.

Definition nearest_deadline (strptime : string -> option datetime) (now : datetime)
    (task : Task) : bool :=
  negb (truthy (completed task)) && due_within_day strptime now task.

(** The flag of a task as the program writes it: 0 at creation, 0 or 1 at a
    toggle. *)
Definition boolean_flag (task : Task) : Prop := completed task = 0 \/ completed task = 1.

(** A sink that delivers every notification. *)
Definition reliable (sink_raises : list Effect -> string -> string -> bool) : Prop :=
  forall tr title message, sink_raises tr title message = false.

(** The messages of the three reminders of a task. *)
Definition notification_message (name : string) : string :=
  "Task '" +:+ name +:+ "' notification time reached!".
Definition overdue_message (name : string) : string :=
  "Task '" +:+ name +:+ "' is overdue!".
Definition approaching_message (name : string) : string :=
  "Task '" +:+ name +:+ "' deadline is approaching!".

(** The sink delivers every notification of a run of effects, each call
    being made after the effects before it. *)
Fixpoint delivered (sink_raises : list Effect -> string -> string -> bool)
    (tr events : list Effect) : bool :=
  match events with
  | [] => true
  | Notify title message timeout :: rest =>
      negb (sink_raises tr title message)
      && delivered sink_raises (tr ++ [Notify title message timeout]) rest
  | e :: rest => delivered sink_raises (tr ++ [e]) rest
  end.

(** A computation that raises the sink's error only where the sink raised,
    on a call made at the trace it ends with. *)
Definition sink_faithful (sink_raises : list Effect -> string -> string -> bool)
    {A} (m : Pass A) : Prop :=
  forall tr tr' title message,
    run m tr = (tr', Raised (NotifyError title message)) ->
    sink_raises tr' title message = true.

(** The triggers of a process match a set of sessions: one active trigger for
    each, and the flag set in exactly those sessions' states. *)
Definition triggers_match (p : Process) (started : gset nat) : Prop :=
  active_triggers p = size started
  /\ forall sid, session_state sid p !! "scheduler_started" = None <-> sid ∉ started.

(** ** A store to run the model on

    The clock reads 2024-05-01 12:00. *)

Definition noon : datetime := mk_datetime 2024 5 1 12 0.

Definition always_delivers : list Effect -> string -> string -> bool :=
  fun _ _ _ => false.

(** A sink that raises on the overdue notification of the task "report" and
    delivers every other one. *)
Definition fails_for_report : list Effect -> string -> string -> bool :=
  fun _ _ message => String.eqb message "Task 'report' is overdue!".

(** A sink that raises on every notification that a notify time is reached
    and delivers every other one. *)
Definition fails_for_notification : list Effect -> string -> string -> bool :=
  fun _ title _ => String.eqb title "Task Notification".

Definition task_invoice : Task :=
  mkTask 8 "invoice" "2024-05-01 10:00" "1970-01-01 00:00" "Hal" "Buyer" "High" 0.

Definition task_late : Task :=
  mkTask 1 "report" "2024-05-01 11:59" "1970-01-01 00:00" "Ann" "Lead" "High" 0.

Definition task_soon : Task :=
  mkTask 2 "call" "2024-05-01 12:10" "2024-05-01 11:00" "Bob" "Owner" "Medium" 0.

Definition task_far : Task :=
  mkTask 3 "taxes" "2024-05-02 12:00" "2024-05-01 11:59" "Cy" "Clerk" "Low" 0.

Definition task_done : Task :=
  mkTask 4 "archive" "last week" "never" "Dee" "Admin" "Low" 1.

Definition task_corrupt : Task :=
  mkTask 5 "backup" "2024-05-01 11:00" "01/05/2024 10:00" "Eve" "Ops" "High" 0.

Definition form_past_deadline : Form :=
  mkForm "review" "Ann" "Lead" "Medium"
    (days_from_civil 2024 4 30) (9 * 60 * MICROS_PER_MINUTE)
    (days_from_civil 2024 5 2) (9 * 60 * MICROS_PER_MINUTE).

Definition form_valid : Form :=
  mkForm "review" "Ann" "Lead" "Medium"
    (days_from_civil 2024 5 3) (9 * 60 * MICROS_PER_MINUTE)
    (days_from_civil 2024 5 2) (9 * 60 * MICROS_PER_MINUTE).

Definition store_of_three : DB := mkDB [task_late; task_soon; task_done] 4.

(** ** The store under sequences of operations

    The keys of the rows, the row under a key, and the operations the program
    performs on the table, run one after another. *)

Definition empty_db : DB := mkDB [] 0.

Definition ids (db : DB) : list Z := map task_id (rows db).

Definition find_task (id : Z) (db : DB) : option Task :=
  List.find (fun row => task_id row =? id) (rows db).

(** Keys are unique and none is beyond the last one handed out. *)
Definition well_keyed (db : DB) : Prop :=
  List.NoDup (ids db) /\ Forall (fun id => id <= seq db) (ids db).

Inductive StoreOp :=
  | OpAdd (name deadline notify_time assigned_by designation priority : string)
  | OpUpdate (id : Z) (name deadline notify_time assigned_by designation priority : string)
      (completed : Z)
  | OpDelete (id : Z).

Definition exec (db : DB) (op : StoreOp) : DB :=
  match op with
  | OpAdd name deadline notify_time assigned_by designation priority =>
      add_task name deadline notify_time assigned_by designation priority db
  | OpUpdate id name deadline notify_time assigned_by designation priority completed =>
      update_task id name deadline notify_time assigned_by designation priority completed db
  | OpDelete id => delete_task id db
  end.

Definition exec_all (ops : list StoreOp) (db : DB) : DB := foldl exec db ops.

(** ** The row widgets of [main]

    [task] is the row as the script read it with [get_tasks]; [checked] is
    the state of its 'Complete' checkbox and [clicked] that of its delete
    button.  Both handlers write the store and ask for a rerun. *)

Definition set_completed (flag : Z) (task : Task) : Task :=
  mkTask (task_id task) (name task) (deadline task) (notify_time task)
    (assigned_by task) (designation task) (priority task) flag.

Definition on_checkbox (checked : bool) (task : Task) (db : DB) : DB * list Effect :=
  if checked then
    if negb (truthy (completed task)) then
      (update_task (task_id task) (name task) (deadline task) (notify_time task)
         (assigned_by task) (designation task) (priority task) 1 db, [StRerun])
    else (db, [])
  else
    if truthy (completed task) then
      (update_task (task_id task) (name task) (deadline task) (notify_time task)
         (assigned_by task) (designation task) (priority task) 0 db, [StRerun])
    else (db, []).

Definition on_delete_button (clicked : bool) (task : Task) (db : DB) : DB * list Effect :=
  if clicked then (delete_task (task_id task) db, [StRerun]) else (db, []).

(** ** The evaluator on whole snapshots

    A task is readable when, being incomplete, both its timestamps parse.
    [task_events] is what the contract asks for one task and [pass_events]
    for a snapshot, task after task. *)

Definition readable (strptime : string -> option datetime) (task : Task) : Prop :=
  completed task = 0 ->
  is_Some (strptime (deadline task)) /\ is_Some (strptime (notify_time task)).

Definition task_events (strptime : string -> option datetime) (now : datetime)
    (task : Task) : list Effect :=
  if truthy (completed task) then []
  else
    match strptime (deadline task), strptime (notify_time task) with
    | Some deadline_dt, Some notify_dt => contract_events now notify_dt deadline_dt (name task)
    | _, _ => []
    end.

Definition pass_events (strptime : string -> option datetime) (now : datetime)
    (tasks : list Task) : list Effect :=
  flat_map (task_events strptime now) tasks.

(** The three reminders, by kind. *)
Inductive Reminder := NotificationDue | Overdue | Approaching.

Definition reminder_event (kind : Reminder) (name : string) : list Effect :=
  match kind with
  | NotificationDue => notification_event name
  | Overdue => overdue_event name
  | Approaching => approaching_event name
  end.

Definition reminders_events (reminders : list (Reminder * Task)) : list Effect :=
  flat_map (fun reminder => reminder_event (fst reminder) (name (snd reminder))) reminders.

(** The scheduler that [init_scheduler] starts: running, with the one job. *)
Definition started_scheduler : Scheduler := mkScheduler [mkJob CheckDeadlines 1] true.

(** A form that passes every check of the submit block. *)
Definition valid_form (now : datetime) (form : Form) : Prop :=
  form_name form <> "" /\ form_assigned_by form <> "" /\ form_designation form <> ""
  /\ now <= combine (deadline_date form) (deadline_time form)
  /\ now <= combine (notify_date form) (notify_time_val form).

(** ** The table behind the store, and [init_db]

    The [tasks] table as SQLite keeps it: the declared column names in
    order, and the records cell by cell in column order.  SQLite matches
    column names without regard to ASCII case, both when a column is added
    and when it is selected; Python's [in] on the names read from
    [PRAGMA table_info] matches them exactly.  [None] for a database is a
    file without the table; [None] for a result is the [OperationalError]
    of the statement that fails. *)

Module Schema.

Inductive Value :=
  | VInt (n : Z)
  | VText (s : string).

Record Table := mkTable {
  columns : list string;
  records : list (list Value)
}.

Definition lower (c : ascii) : ascii :=
  let n := N_of_ascii c in
  if ((65 <=? n) && (n <=? 90))%N then ascii_of_N (n + 32) else c.

Fixpoint fold_case (s : string) : string :=
  match s with
  | EmptyString => EmptyString
  | String c s' => String (lower c) (fold_case s')
  end.

Definition same_column (a b : string) : bool := String.eqb (fold_case a) (fold_case b).

Definition has_column (c : string) (t : Table) : bool := existsb (same_column c) (columns t).

(** [c in names]. *)
Definition listed (c : string) (names : list string) : bool := existsb (String.eqb c) names.

(** The columns of the [CREATE TABLE] statement. *)
Definition TASKS_COLUMNS : list string :=
  ["id"; "name"; "deadline"; "notify_time"; "assigned_by"; "designation"; "priority";
   "completed"].

Definition create_table_if_not_exists (db : option Table) : Table :=
  match db with
  | Some t => t
  | None => mkTable TASKS_COLUMNS []
  end.

(** [ALTER TABLE tasks ADD COLUMN c ... DEFAULT v]: refused when the table
    has the column; otherwise the column comes last and every record reads
    the default in it. *)
Definition add_column (c : string) (v : Value) (t : Table) : option Table :=
  if has_column c t then None
  else Some (mkTable (columns t ++ [c]) (map (fun r => r ++ [v]) (records t))).

(** [if c not in columns: ALTER TABLE ...]. *)
Definition migrate (c : string) (v : Value) (names : list string) (t : Table) : option Table :=
  if negb (listed c names) then add_column c v t else Some t.

Definition init_db (db : option Table) : option Table :=
  let t := create_table_if_not_exists db in
  let names := columns t in
  t ← migrate "notify_time" (VText "1970-01-01 00:00") names t;
  t ← migrate "assigned_by" (VText "") names t;
  t ← migrate "designation" (VText "") names t;
  t ← migrate "priority" (VText "Medium") names t;
  Some t.

(** The four columns that [init_db] migrates, with their defaults, and those
    of them that a list of names lacks. *)
Definition MIGRATED : list (string * Value) :=
  [("notify_time", VText "1970-01-01 00:00"); ("assigned_by", VText "");
   ("designation", VText ""); ("priority", VText "Medium")].

Definition missing (names : list string) : list (string * Value) :=
  List.filter (fun cv => negb (listed (fst cv) names)) MIGRATED.

(** The migrations of a list, one after the other, against the names read
    at the start; [init_db] runs those of [MIGRATED]. *)
Fixpoint migrate_all (ms : list (string * Value)) (names : list string) (t : Table)
    : option Table :=
  match ms with
  | [] => Some t
  | (c, v) :: ms' => t' ← migrate c v names t; migrate_all ms' names t'
  end.

(** No two columns of a list of migrations have the same name. *)
Fixpoint distinct_columns (ms : list (string * Value)) : bool :=
  match ms with
  | [] => true
  | (c, _) :: ms' =>
      forallb (fun m => negb (same_column (fst m) c)) ms' && distinct_columns ms'
  end.

(** The [SELECT] of [get_tasks] on the table: the statement is refused when
    one of its eight columns is not there, whether or not the table has
    records; otherwise each column is looked up by name in every record.  A
    record whose cells are not of the kinds the program unpacks (integers for
    the key and the flag, texts for the rest) is outside the model and also
    gives [None]. *)
Fixpoint column_index (c : string) (names : list string) : option nat :=
  match names with
  | [] => None
  | n :: rest => if same_column c n then Some 0%nat else S <$> column_index c rest
  end.

Definition cell (c : string) (t : Table) (r : list Value) : option Value :=
  i ← column_index c (columns t); r !! i.

Definition as_int (v : Value) : option Z :=
  match v with VInt n => Some n | VText _ => None end.

Definition as_text (v : Value) : option string :=
  match v with VText s => Some s | VInt _ => None end.

Definition select_row (t : Table) (r : list Value) : option Task :=
  id ← cell "id" t r ≫= as_int;
  name ← cell "name" t r ≫= as_text;
  deadline ← cell "deadline" t r ≫= as_text;
  notify_time ← cell "notify_time" t r ≫= as_text;
  assigned_by ← cell "assigned_by" t r ≫= as_text;
  designation ← cell "designation" t r ≫= as_text;
  priority ← cell "priority" t r ≫= as_text;
  completed ← cell "completed" t r ≫= as_int;
  Some (mkTask id name deadline notify_time assigned_by designation priority completed).

Definition get_tasks (t : Table) : option (list Task) :=
  if forallb (fun c => has_column c t) TASKS_COLUMNS
  then mapM (select_row t) (records t)
  else None.

(** Every record has a cell for every column. *)
Definition rectangular (t : Table) : Prop :=
  Forall (fun r => length r = length (columns t)) (records t).

End Schema.

(** A table of an early version of the program: no notify time, no assigner,
    no designation, no priority. *)
Definition legacy_table : Schema.Table :=
  Schema.mkTable ["id"; "name"; "deadline"; "completed"]
    [[Schema.VInt 1; Schema.VText "report"; Schema.VText "2024-05-01 11:59"; Schema.VInt 0];
     [Schema.VInt 2; Schema.VText "call"; Schema.VText "2024-05-01 12:10"; Schema.VInt 1]].

(** A table whose notify column was declared with a capital. *)
Definition capital_table : Schema.Table :=
  Schema.mkTable ["id"; "name"; "deadline"; "Notify_Time"; "completed"] [].

(** More of the sample store: a task due in exactly thirty minutes with no
    notify time, a sink that raises on every call, and the clock a day
    later. *)
Definition task_quiet : Task :=
  mkTask 6 "lunch" "2024-05-01 12:30" "1970-01-01 00:00" "Gus" "Chef" "Low" 0.

Definition always_raises : list Effect -> string -> string -> bool :=
  fun _ _ _ => true.

Definition next_noon : datetime := mk_datetime 2024 5 2 12 0.

(** ** The calendar at work *)

Example epoch_is_zero : EPOCH = 0.
Proof. reflexivity. Qed.

Example strptime_padded_sentinel : strptime_padded "1970-01-01 00:00" = Some EPOCH.
Proof. reflexivity. Qed.

Example strptime_padded_ok :
  strptime_padded "2024-02-29 10:30" = Some (mk_datetime 2024 2 29 10 30).
Proof. reflexivity. Qed.

Example strptime_padded_bad_day : strptime_padded "2023-02-29 10:30" = None.
Proof. reflexivity. Qed.

Example strftime_padded_back :
  strftime_padded (mk_datetime 2024 2 29 10 30) = "2024-02-29 10:30".
Proof. reflexivity. Qed.

(** ** Properties of the evaluator *)

Section EvaluatorFacts.

Variable strptime : string -> option datetime.
Variable sink_raises : list Effect -> string -> string -> bool.

Local Abbreviation check_task := (check_task strptime sink_raises).
Local Abbreviation check_deadlines := (check_deadlines strptime sink_raises).

Lemma run_bind {A B} (m : Pass A) (f : A -> Pass B) tr :
  run (m ≫= f) tr =
  match run m tr with
  | (tr', Returned a) => run (f a) tr'
  | (tr', Raised e) => (tr', Raised e)
  end.
Proof. reflexivity. Qed.

Lemma run_ret {A} (a : A) tr : run (mret a : Pass A) tr = (tr, Returned a).
Proof. reflexivity. Qed.

Lemma run_lift {A} (o : Outcome A) tr : run (lift o) tr = (tr, o).
Proof. reflexivity. Qed.

Lemma run_perform e tr : run (perform e) tr = (tr ++ [e], Returned ()).
Proof. reflexivity. Qed.

Lemma run_notify_delivered title message timeout tr :
  sink_raises tr title message = false ->
  run (notification_notify sink_raises title message timeout) tr
  = (tr ++ [Notify title message timeout], Returned ()).
Proof. intros H. unfold run, notification_notify. now rewrite H. Qed.

Lemma run_notify_raised title message timeout tr :
  sink_raises tr title message = true ->
  run (notification_notify sink_raises title message timeout) tr
  = (tr, Raised (NotifyError title message)).
Proof. intros H. unfold run, notification_notify. now rewrite H. Qed.

Ltac pass_steps :=
  repeat first
    [ rewrite run_bind | rewrite run_lift | rewrite run_ret | rewrite run_perform
    | rewrite run_notify_delivered by auto | progress cbv beta iota ].

(** The loop runs the tasks in order and stops at the first exception. *)
Lemma run_check_deadlines_cons now task rest tr :
  run (check_deadlines now (task :: rest)) tr =
  match run (check_task now task) tr with
  | (tr', Returned _) => run (check_deadlines now rest) tr'
  | (tr', Raised e) => (tr', Raised e)
  end.
Proof. reflexivity. Qed.

Lemma run_check_deadlines_app now before rest tr :
  run (check_deadlines now (before ++ rest)) tr =
  match run (check_deadlines now before) tr with
  | (tr', Returned _) => run (check_deadlines now rest) tr'
  | (tr', Raised e) => (tr', Raised e)
  end.
Proof.
  revert tr. induction before as [|task before IH]; intros tr.
  - reflexivity.
  - change ((task :: before) ++ rest) with (task :: (before ++ rest)).
    rewrite !run_check_deadlines_cons.
    destruct (run (check_task now task) tr) as [tr' [[]|e]]; [apply IH | reflexivity].
Qed.

Lemma run_check_deadlines_reach now before task after tr0 tr1 :
  run (check_deadlines now before) tr0 = (tr1, Returned ()) ->
  run (check_deadlines now (before ++ task :: after)) tr0 =
  match run (check_task now task) tr1 with
  | (tr', Returned _) => run (check_deadlines now after) tr'
  | (tr', Raised e) => (tr', Raised e)
  end.
Proof.
  intros Hbefore. rewrite run_check_deadlines_app, Hbefore.
  apply run_check_deadlines_cons.
Qed.

(** A completed task is skipped before anything of it is read. *)
Lemma run_check_task_completed now task tr :
  completed task <> 0 -> run (check_task now task) tr = (tr, Returned ()).
Proof.
  intros Hc. unfold check_task, truthy.
  destruct (Z.eqb_spec (completed task) 0) as [E|_]; [contradiction | reflexivity].
Qed.

(** An incomplete task with two readable timestamps and a sink that delivers:
    the evaluator performs the reminders of the contract, the notification
    part first. *)
Lemma run_check_task_incomplete now task d n tr :
  reliable sink_raises ->
  completed task = 0 ->
  strptime (deadline task) = Some d ->
  strptime (notify_time task) = Some n ->
  run (check_task now task) tr
  = (tr ++ notification_part now n (name task) ++ deadline_part now d (name task),
     Returned ()).
Proof.
  intros Hsink Hc Hd Hn.
  unfold check_task, truthy, parse. rewrite Hc, Hd, Hn. cbn [Z.eqb negb].
  unfold notification_part, deadline_part, notify_time_reached.
  unfold notification_event, overdue_event, approaching_event, st_info, st_warning.
  pass_steps. rewrite Z.geb_leb, Z.gtb_ltb.
  destruct ((n <=? now) && (EPOCH <? n));
    (destruct (d <? now); [|destruct (d - now <? timedelta_minutes 30)]);
    pass_steps; rewrite <- ?app_assoc, ?app_nil_r; reflexivity.
Qed.

Lemma count_events_app title tr1 tr2 :
  count_events title (tr1 ++ tr2) = (count_events title tr1 + count_events title tr2)%nat.
Proof. unfold count_events. now rewrite List.filter_app, length_app. Qed.

Lemma count_notification_part title now n name :
  count_events title (notification_part now n name)
  = if notify_time_reached now n && String.eqb TITLE_NOTIFICATION title then 1%nat else 0%nat.
Proof.
  unfold notification_part. destruct (notify_time_reached now n); [|reflexivity].
  unfold count_events, notification_event. cbn [List.filter is_notify_titled andb].
  now destruct (String.eqb TITLE_NOTIFICATION title).
Qed.

Lemma count_overdue_event title name :
  count_events title (overdue_event name) = if String.eqb TITLE_OVERDUE title then 1%nat else 0%nat.
Proof.
  unfold count_events, overdue_event. cbn [List.filter is_notify_titled].
  now destruct (String.eqb TITLE_OVERDUE title).
Qed.

Lemma count_approaching_event title name :
  count_events title (approaching_event name)
  = if String.eqb TITLE_APPROACHING title then 1%nat else 0%nat.
Proof.
  unfold count_events, approaching_event. cbn [List.filter is_notify_titled].
  now destruct (String.eqb TITLE_APPROACHING title).
Qed.

Lemma run_reminder title message shown tr :
  run (notification_notify sink_raises title message 10 ≫= (fun _ => perform shown)) tr
  = if sink_raises tr title message
    then (tr, Raised (NotifyError title message))
    else (tr ++ [Notify title message 10; shown], Returned ()).
Proof.
  rewrite run_bind. unfold run, notification_notify.
  destruct (sink_raises tr title message); [reflexivity|].
  unfold perform. now rewrite <- app_assoc.
Qed.

(** An incomplete task with two readable timestamps, call by call and for
    any sink: the notification call, if due, is made first and ends the
    evaluation if it raises; the deadline call, if due, is made next. *)
Lemma run_check_task_calls now task d n tr :
  completed task = 0 ->
  strptime (deadline task) = Some d ->
  strptime (notify_time task) = Some n ->
  run (check_task now task) tr
  = if notify_time_reached now n
       && sink_raises tr TITLE_NOTIFICATION (notification_message (name task))
    then (tr, Raised (NotifyError TITLE_NOTIFICATION (notification_message (name task))))
    else if d <? now then
      if sink_raises (tr ++ notification_part now n (name task))
           TITLE_OVERDUE (overdue_message (name task))
      then (tr ++ notification_part now n (name task),
            Raised (NotifyError TITLE_OVERDUE (overdue_message (name task))))
      else (tr ++ notification_part now n (name task) ++ overdue_event (name task),
            Returned ())
    else if d - now <? timedelta_minutes 30 then
      if sink_raises (tr ++ notification_part now n (name task))
           TITLE_APPROACHING (approaching_message (name task))
      then (tr ++ notification_part now n (name task),
            Raised (NotifyError TITLE_APPROACHING (approaching_message (name task))))
      else (tr ++ notification_part now n (name task) ++ approaching_event (name task),
            Returned ())
    else (tr ++ notification_part now n (name task), Returned ()).
Proof.
  intros Hc Hd Hn.
  unfold check_task, truthy, parse. rewrite Hc, Hd, Hn. cbn [Z.eqb negb].
  unfold st_info, st_warning, notification_part, notification_event, overdue_event,
    approaching_event, notification_message, overdue_message, approaching_message,
    TITLE_NOTIFICATION, TITLE_OVERDUE, TITLE_APPROACHING, notify_time_reached.
  rewrite !run_bind, !run_lift. cbv beta iota. rewrite !run_bind, !run_lift. cbv beta iota.
  rewrite Z.geb_leb, Z.gtb_ltb, run_bind.
  destruct ((n <=? now) && (EPOCH <? n)); cbn [andb].
  - rewrite run_reminder. destruct (sink_raises tr _ _); [reflexivity|]. cbv beta iota.
    destruct (d <? now); [|destruct (d - now <? timedelta_minutes 30)].
    + rewrite run_reminder. destruct (sink_raises _ _ _); [reflexivity|].
      now rewrite <- app_assoc.
    + rewrite run_reminder. destruct (sink_raises _ _ _); [reflexivity|].
      now rewrite <- app_assoc.
    + now rewrite run_ret.
  - rewrite run_ret. cbv beta iota. rewrite !app_nil_r.
    destruct (d <? now); [|destruct (d - now <? timedelta_minutes 30)].
    + rewrite run_reminder. now destruct (sink_raises _ _ _).
    + rewrite run_reminder. now destruct (sink_raises _ _ _).
    + now rewrite run_ret.
Qed.

Lemma delivered_app tr events more :
  delivered sink_raises tr (events ++ more)
  = delivered sink_raises tr events && delivered sink_raises (tr ++ events) more.
Proof.
  revert tr. induction events as [|e events IH]; intros tr.
  - cbn. now rewrite app_nil_r.
  - assert (Htr : tr ++ e :: events = (tr ++ [e]) ++ events) by now rewrite <- app_assoc.
    destruct e; cbn [delivered app]; rewrite IH, Htr, ?andb_assoc; reflexivity.
Qed.

Lemma delivered_notification_part now n name tr :
  delivered sink_raises tr (notification_part now n name)
  = negb (notify_time_reached now n
          && sink_raises tr TITLE_NOTIFICATION (notification_message name)).
Proof.
  unfold notification_part. destruct (notify_time_reached now n); [|reflexivity].
  cbn [delivered notification_event andb]. now rewrite andb_true_r.
Qed.

Lemma delivered_overdue_event name tr :
  delivered sink_raises tr (overdue_event name)
  = negb (sink_raises tr TITLE_OVERDUE (overdue_message name)).
Proof. cbn [delivered overdue_event]. now rewrite andb_true_r. Qed.

Lemma delivered_approaching_event name tr :
  delivered sink_raises tr (approaching_event name)
  = negb (sink_raises tr TITLE_APPROACHING (approaching_message name)).
Proof. cbn [delivered approaching_event]. now rewrite andb_true_r. Qed.

Lemma count_no_deadline_in_notification_part now n name :
  count_events TITLE_OVERDUE (notification_part now n name) = 0%nat
  /\ count_events TITLE_APPROACHING (notification_part now n name) = 0%nat.
Proof.
  rewrite !count_notification_part.
  replace (String.eqb TITLE_NOTIFICATION TITLE_OVERDUE) with false by reflexivity.
  replace (String.eqb TITLE_NOTIFICATION TITLE_APPROACHING) with false by reflexivity.
  now rewrite andb_false_r.
Qed.

(** C1, as the code has it. An incomplete task whose deadline is before
    [now], where the pass reaches it: for any sink the pass performs no
    approaching event and at most one overdue event for it; and where the sink
    raises on none of the task's calls, it performs the notification part (if
    due) and then exactly the overdue reminder, one overdue event, and goes on
    with the tasks after it. *)
Theorem overdue_task_one_overdue_event now before task after d n tr0 tr1 :
  run (check_deadlines now before) tr0 = (tr1, Returned ()) ->
  completed task = 0 ->
  strptime (deadline task) = Some d ->
  strptime (notify_time task) = Some n ->
  d < now ->
  (exists ext out,
     run (check_task now task) tr1 = (tr1 ++ ext, out)
     /\ (count_events TITLE_OVERDUE ext <= 1)%nat
     /\ count_events TITLE_APPROACHING ext = 0%nat)
  /\ (delivered sink_raises tr1
        (notification_part now n (name task) ++ overdue_event (name task)) = true ->
      run (check_task now task) tr1
      = (tr1 ++ notification_part now n (name task) ++ overdue_event (name task), Returned ())
      /\ run (check_deadlines now (before ++ task :: after)) tr0
         = run (check_deadlines now after)
             (tr1 ++ notification_part now n (name task) ++ overdue_event (name task))
      /\ count_events TITLE_OVERDUE
           (notification_part now n (name task) ++ overdue_event (name task)) = 1%nat
      /\ count_events TITLE_APPROACHING
           (notification_part now n (name task) ++ overdue_event (name task)) = 0%nat).
Proof.
  intros Hbefore Hc Hd Hn Hlt.
  pose proof (run_check_task_calls now task d n tr1 Hc Hd Hn) as Hrun.
  apply Z.ltb_lt in Hlt. rewrite Hlt in Hrun.
  destruct (count_no_deadline_in_notification_part now n (name task)) as [Hno Hna].
  assert (Hcounts : count_events TITLE_OVERDUE
                      (notification_part now n (name task) ++ overdue_event (name task)) = 1%nat
                    /\ count_events TITLE_APPROACHING
                         (notification_part now n (name task) ++ overdue_event (name task))
                       = 0%nat).
  { rewrite !count_events_app, Hno, Hna, !count_overdue_event. split; reflexivity. }
  split.
  - destruct (notify_time_reached now n && sink_raises tr1 _ _).
    + exists [], (Raised (NotifyError TITLE_NOTIFICATION (notification_message (name task)))).
      rewrite app_nil_r. split; [exact Hrun|]. split; [cbn; lia | reflexivity].
    + destruct (sink_raises (tr1 ++ _) _ _).
      * eexists _, _. split; [exact Hrun|]. rewrite Hno, Hna. split; [lia | reflexivity].
      * eexists _, _. split; [exact Hrun|]. destruct Hcounts as [-> ->]. split; [lia | reflexivity].
  - intros Hdelivered. rewrite delivered_app, delivered_notification_part,
      delivered_overdue_event in Hdelivered.
    apply andb_true_iff in Hdelivered. destruct Hdelivered as [H1 H2].
    apply negb_true_iff in H1. apply negb_true_iff in H2. rewrite H1, H2 in Hrun.
    split; [exact Hrun|]. split; [|exact Hcounts].
    now rewrite (run_check_deadlines_reach _ _ _ _ _ _ Hbefore), Hrun.
Qed.

(** C2, as the code has it. An incomplete task whose deadline is at [now] or
    less than thirty minutes after it, where the pass reaches it: for any
    sink the pass performs no overdue event and at most one approaching event
    for it; and where the sink raises on none of the task's calls, it performs
    the notification part (if due) and then exactly the approaching reminder,
    one approaching event, and goes on with the tasks after it. *)
Theorem approaching_task_one_approaching_event now before task after d n tr0 tr1 :
  run (check_deadlines now before) tr0 = (tr1, Returned ()) ->
  completed task = 0 ->
  strptime (deadline task) = Some d ->
  strptime (notify_time task) = Some n ->
  0 <= d - now /\ d - now < timedelta_minutes 30 ->
  (exists ext out,
     run (check_task now task) tr1 = (tr1 ++ ext, out)
     /\ (count_events TITLE_APPROACHING ext <= 1)%nat
     /\ count_events TITLE_OVERDUE ext = 0%nat)
  /\ (delivered sink_raises tr1
        (notification_part now n (name task) ++ approaching_event (name task)) = true ->
      run (check_task now task) tr1
      = (tr1 ++ notification_part now n (name task) ++ approaching_event (name task),
         Returned ())
      /\ run (check_deadlines now (before ++ task :: after)) tr0
         = run (check_deadlines now after)
             (tr1 ++ notification_part now n (name task) ++ approaching_event (name task))
      /\ count_events TITLE_APPROACHING
           (notification_part now n (name task) ++ approaching_event (name task)) = 1%nat
      /\ count_events TITLE_OVERDUE
           (notification_part now n (name task) ++ approaching_event (name task)) = 0%nat).
Proof.
  intros Hbefore Hc Hd Hn [Hge Hlt].
  pose proof (run_check_task_calls now task d n tr1 Hc Hd Hn) as Hrun.
  assert (E : (d <? now) = false) by (apply Z.ltb_ge; lia).
  apply Z.ltb_lt in Hlt. rewrite E, Hlt in Hrun.
  destruct (count_no_deadline_in_notification_part now n (name task)) as [Hno Hna].
  assert (Hcounts : count_events TITLE_APPROACHING
                      (notification_part now n (name task) ++ approaching_event (name task))
                    = 1%nat
                    /\ count_events TITLE_OVERDUE
                         (notification_part now n (name task) ++ approaching_event (name task))
                       = 0%nat).
  { rewrite !count_events_app, Hno, Hna, !count_approaching_event. split; reflexivity. }
  split.
  - destruct (notify_time_reached now n && sink_raises tr1 _ _).
    + exists [], (Raised (NotifyError TITLE_NOTIFICATION (notification_message (name task)))).
      rewrite app_nil_r. split; [exact Hrun|]. split; [cbn; lia | reflexivity].
    + destruct (sink_raises (tr1 ++ _) _ _).
      * eexists _, _. split; [exact Hrun|]. rewrite Hno, Hna. split; [lia | reflexivity].
      * eexists _, _. split; [exact Hrun|]. destruct Hcounts as [-> ->]. split; [lia | reflexivity].
  - intros Hdelivered. rewrite delivered_app, delivered_notification_part,
      delivered_approaching_event in Hdelivered.
    apply andb_true_iff in Hdelivered. destruct Hdelivered as [H1 H2].
    apply negb_true_iff in H1. apply negb_true_iff in H2. rewrite H1, H2 in Hrun.
    split; [exact Hrun|]. split; [|exact Hcounts].
    now rewrite (run_check_deadlines_reach _ _ _ _ _ _ Hbefore), Hrun.
Qed.

(** C3. A completed task: the evaluator performs nothing for it and raises
    nothing, whatever its two timestamp strings hold (readable or not),
    whatever the sink does and at every [now]; the pass over a snapshot is the
    pass over the snapshot without the task. *)
Theorem completed_task_no_event now before task after tr0 :
  completed task <> 0 ->
  (forall tr, run (check_task now task) tr = (tr, Returned ()))
  /\ run (check_deadlines now (before ++ task :: after)) tr0
     = run (check_deadlines now (before ++ after)) tr0.
Proof.
  intros Hc. split.
  - intros tr. now apply run_check_task_completed.
  - rewrite !run_check_deadlines_app.
    destruct (run (check_deadlines now before) tr0) as [tr1 [[]|e]]; [|reflexivity].
    rewrite run_check_deadlines_cons. now rewrite run_check_task_completed.
Qed.

Lemma notify_time_reached_iff now n :
  notify_time_reached now n = true <-> now >= n /\ n > EPOCH.
Proof. unfold notify_time_reached. rewrite andb_true_iff, Z.leb_le, Z.ltb_lt. lia. Qed.

(** For any sink, what an incomplete task with readable timestamps adds to
    the trace holds the notification-time call exactly when that call is due
    and the sink delivers it. *)
Lemma check_task_notification_count now task d n tr :
  completed task = 0 ->
  strptime (deadline task) = Some d ->
  strptime (notify_time task) = Some n ->
  exists ext out,
    run (check_task now task) tr = (tr ++ ext, out)
    /\ count_events TITLE_NOTIFICATION ext
       = if notify_time_reached now n
            && negb (sink_raises tr TITLE_NOTIFICATION (notification_message (name task)))
         then 1%nat else 0%nat.
Proof.
  intros Hc Hd Hn. rewrite (run_check_task_calls now task d n tr Hc Hd Hn).
  assert (Hpart : count_events TITLE_NOTIFICATION (notification_part now n (name task))
                  = if notify_time_reached now n then 1%nat else 0%nat).
  { rewrite count_notification_part.
    replace (String.eqb TITLE_NOTIFICATION TITLE_NOTIFICATION) with true by reflexivity.
    now rewrite andb_true_r. }
  assert (Hover : count_events TITLE_NOTIFICATION (overdue_event (name task)) = 0%nat)
    by apply count_overdue_event.
  assert (Happr : count_events TITLE_NOTIFICATION (approaching_event (name task)) = 0%nat)
    by apply count_approaching_event.
  destruct (notify_time_reached now n);
    destruct (sink_raises tr TITLE_NOTIFICATION _); cbn [andb negb].
  1: { exists [], (Raised (NotifyError TITLE_NOTIFICATION (notification_message (name task)))).
       now rewrite app_nil_r. }
  all: destruct (d <? now); [|destruct (d - now <? timedelta_minutes 30)];
    try destruct (sink_raises (tr ++ _) _ _);
    eexists _, _; (split; [reflexivity|]);
    rewrite ?count_events_app, ?Hpart, ?Hover, ?Happr; reflexivity.
Qed.

(** C4, as the code has it. An incomplete task with readable timestamps,
    where the pass reaches it: for any sink the pass performs the
    notification-time reminder for it exactly when [now >= notify time], the
    notify time is after the epoch sentinel and the sink does not raise on
    that call, so never for the sentinel itself; and where the sink raises on
    none of the task's calls, the pass performs what the contract asks,
    the notification part decided by the notify time alone and the deadline
    part by the deadline alone, together or apart. *)
Theorem notification_time_event now before task after d n tr0 tr1 :
  run (check_deadlines now before) tr0 = (tr1, Returned ()) ->
  completed task = 0 ->
  strptime (deadline task) = Some d ->
  strptime (notify_time task) = Some n ->
  (exists ext out,
     run (check_task now task) tr1 = (tr1 ++ ext, out)
     /\ (count_events TITLE_NOTIFICATION ext = 1%nat
         <-> now >= n /\ n > EPOCH
             /\ sink_raises tr1 TITLE_NOTIFICATION (notification_message (name task)) = false)
     /\ (count_events TITLE_NOTIFICATION ext = 0%nat
         <-> ~ (now >= n /\ n > EPOCH
                /\ sink_raises tr1 TITLE_NOTIFICATION (notification_message (name task))
                   = false))
     /\ (n = EPOCH -> count_events TITLE_NOTIFICATION ext = 0%nat))
  /\ (delivered sink_raises tr1 (contract_events now n d (name task)) = true ->
      run (check_deadlines now (before ++ task :: after)) tr0
      = run (check_deadlines now after) (tr1 ++ contract_events now n d (name task))
      /\ (count_events TITLE_NOTIFICATION (contract_events now n d (name task)) = 1%nat
          <-> now >= n /\ n > EPOCH)
      /\ (count_events TITLE_NOTIFICATION (contract_events now n d (name task)) = 0%nat
          <-> ~ (now >= n /\ n > EPOCH))
      /\ (n = EPOCH ->
          count_events TITLE_NOTIFICATION (contract_events now n d (name task)) = 0%nat)
      /\ count_events TITLE_OVERDUE (contract_events now n d (name task))
         = (if d <? now then 1%nat else 0%nat)
      /\ count_events TITLE_APPROACHING (contract_events now n d (name task))
         = (if d <? now then 0%nat
            else if d - now <? timedelta_minutes 30 then 1%nat else 0%nat)).
Proof.
  intros Hbefore Hc Hd Hn.
  pose proof (notify_time_reached_iff now n) as Hreached.
  split.
  - destruct (check_task_notification_count now task d n tr1 Hc Hd Hn)
      as (ext & out & Hrun & Hcount).
    exists ext, out. split; [exact Hrun|]. rewrite Hcount.
    assert (Hiff : notify_time_reached now n
                   && negb (sink_raises tr1 TITLE_NOTIFICATION
                              (notification_message (name task))) = true
                   <-> now >= n /\ n > EPOCH
                       /\ sink_raises tr1 TITLE_NOTIFICATION
                            (notification_message (name task)) = false).
    { rewrite andb_true_iff, negb_true_iff, Hreached. tauto. }
    split; [|split].
    + rewrite <- Hiff. destruct (_ && _); split; intros H; try reflexivity; discriminate.
    + rewrite <- Hiff. destruct (_ && _); split; intros H;
        try reflexivity; try discriminate; congruence.
    + intros ->. unfold notify_time_reached. now rewrite Z.ltb_irrefl, andb_false_r.
  - intros Hdelivered.
    assert (Hrun : run (check_task now task) tr1
                   = (tr1 ++ contract_events now n d (name task), Returned ())).
    { rewrite (run_check_task_calls now task d n tr1 Hc Hd Hn).
      unfold contract_events, deadline_part in Hdelivered |- *.
      rewrite delivered_app, delivered_notification_part in Hdelivered.
      apply andb_true_iff in Hdelivered. destruct Hdelivered as [H1 H2].
      apply negb_true_iff in H1. rewrite H1.
      destruct (d <? now); [|destruct (d - now <? timedelta_minutes 30)].
      - rewrite delivered_overdue_event in H2. apply negb_true_iff in H2. now rewrite H2.
      - rewrite delivered_approaching_event in H2. apply negb_true_iff in H2. now rewrite H2.
      - now rewrite app_nil_r. }
    split.
    { now rewrite (run_check_deadlines_reach _ _ _ _ _ _ Hbefore), Hrun. }
    assert (Hcount : count_events TITLE_NOTIFICATION (contract_events now n d (name task))
                     = if notify_time_reached now n then 1%nat else 0%nat).
    { unfold contract_events, deadline_part.
      rewrite count_events_app, count_notification_part.
      replace (String.eqb TITLE_NOTIFICATION TITLE_NOTIFICATION) with true by reflexivity.
      rewrite andb_true_r.
      destruct (d <? now); [|destruct (d - now <? timedelta_minutes 30)];
        rewrite ?count_overdue_event, ?count_approaching_event;
        destruct (notify_time_reached now n); reflexivity. }
    destruct (count_no_deadline_in_notification_part now n (name task)) as [Hno Hna].
    rewrite Hcount, <- Hreached. split; [|split; [|split; [|split]]].
    + destruct (notify_time_reached now n); split; intros H; try reflexivity; discriminate.
    + destruct (notify_time_reached now n); split; intros H;
        try reflexivity; try discriminate; congruence.
    + intros ->. unfold notify_time_reached. now rewrite Z.ltb_irrefl, andb_false_r.
    + unfold contract_events, deadline_part. rewrite count_events_app, Hno.
      destruct (d <? now); [|destruct (d - now <? timedelta_minutes 30)]; reflexivity.
    + unfold contract_events, deadline_part. rewrite count_events_app, Hna.
      destruct (d <? now); [|destruct (d - now <? timedelta_minutes 30)]; reflexivity.
Qed.

Lemma sink_faithful_ret {A} (a : A) : sink_faithful sink_raises (mret a : Pass A).
Proof. intros tr tr' title message. rewrite run_ret. discriminate. Qed.

Lemma sink_faithful_parse data : sink_faithful sink_raises (lift (parse strptime data)).
Proof.
  intros tr tr' title message. rewrite run_lift. unfold parse.
  destruct (strptime data); discriminate.
Qed.

Lemma sink_faithful_perform e : sink_faithful sink_raises (perform e).
Proof. intros tr tr' title message. rewrite run_perform. discriminate. Qed.

Lemma sink_faithful_notify title message timeout :
  sink_faithful sink_raises (notification_notify sink_raises title message timeout).
Proof.
  intros tr tr' title' message'. unfold run, notification_notify.
  destruct (sink_raises tr title message) eqn:E; [|discriminate].
  now intros [= <- <- <-].
Qed.

Lemma sink_faithful_bind {A B} (m : Pass A) (f : A -> Pass B) :
  sink_faithful sink_raises m -> (forall a, sink_faithful sink_raises (f a)) ->
  sink_faithful sink_raises (m ≫= f).
Proof.
  intros Hm Hf tr tr' title message. rewrite run_bind.
  destruct (run m tr) as [tr1 [a|e]] eqn:E.
  - apply Hf.
  - intros [= <- ->]. now apply (Hm tr).
Qed.

Lemma sink_faithful_if {A} (b : bool) (m1 m2 : Pass A) :
  sink_faithful sink_raises m1 -> sink_faithful sink_raises m2 ->
  sink_faithful sink_raises (if b then m1 else m2).
Proof. now destruct b. Qed.

(** What [check_task] raises from the sink, the sink raised. *)
Lemma sink_faithful_check_task now task : sink_faithful sink_raises (check_task now task).
Proof.
  unfold check_task, st_info, st_warning.
  repeat first
    [ apply sink_faithful_if | apply sink_faithful_bind
    | apply sink_faithful_ret | apply sink_faithful_parse
    | apply sink_faithful_perform | apply sink_faithful_notify
    | match goal with |- forall _, _ => intros ? end ].
Qed.

(** C5, as the code has it. A failure of the sink is not caught.  Where the
    pass reaches an incomplete task with readable timestamps and the sink
    raises on one of its calls (the notification-time call when it is due,
    or, that one delivered or not due, the overdue or the approaching call),
    the pass ends at that call with the sink's error, keeps what it performed
    before the call and evaluates none of the tasks after it, whatever they
    are. *)
Theorem sink_failure_ends_pass now before task after d n tr0 tr1 :
  run (check_deadlines now before) tr0 = (tr1, Returned ()) ->
  completed task = 0 ->
  strptime (deadline task) = Some d ->
  strptime (notify_time task) = Some n ->
  (now >= n /\ n > EPOCH ->
   sink_raises tr1 TITLE_NOTIFICATION (notification_message (name task)) = true ->
   run (check_deadlines now (before ++ task :: after)) tr0
   = (tr1, Raised (NotifyError TITLE_NOTIFICATION (notification_message (name task)))))
  /\ (delivered sink_raises tr1 (notification_part now n (name task)) = true ->
      d < now ->
      sink_raises (tr1 ++ notification_part now n (name task))
        TITLE_OVERDUE (overdue_message (name task)) = true ->
      run (check_deadlines now (before ++ task :: after)) tr0
      = (tr1 ++ notification_part now n (name task),
         Raised (NotifyError TITLE_OVERDUE (overdue_message (name task)))))
  /\ (delivered sink_raises tr1 (notification_part now n (name task)) = true ->
      0 <= d - now /\ d - now < timedelta_minutes 30 ->
      sink_raises (tr1 ++ notification_part now n (name task))
        TITLE_APPROACHING (approaching_message (name task)) = true ->
      run (check_deadlines now (before ++ task :: after)) tr0
      = (tr1 ++ notification_part now n (name task),
         Raised (NotifyError TITLE_APPROACHING (approaching_message (name task))))).
Proof.
  intros Hbefore Hc Hd Hn.
  rewrite (run_check_deadlines_reach _ _ _ _ _ _ Hbefore).
  rewrite (run_check_task_calls now task d n tr1 Hc Hd Hn).
  split; [|split].
  - intros Hdue Hraises. apply notify_time_reached_iff in Hdue. now rewrite Hdue, Hraises.
  - intros Hdelivered Hlt Hraises. rewrite delivered_notification_part in Hdelivered.
    apply negb_true_iff in Hdelivered. apply Z.ltb_lt in Hlt.
    now rewrite Hdelivered, Hlt, Hraises.
  - intros Hdelivered [Hge Hlt] Hraises. rewrite delivered_notification_part in Hdelivered.
    apply negb_true_iff in Hdelivered.
    assert (E : (d <? now) = false) by (apply Z.ltb_ge; lia).
    apply Z.ltb_lt in Hlt. now rewrite Hdelivered, E, Hlt, Hraises.
Qed.

(** C8. An incomplete task with an unreadable deadline or notify time: the
    pass over any snapshot that holds it ends with an exception, and where
    the pass reaches the task it raises the [ValueError] of the first
    unreadable string there, having performed nothing for the task, and
    evaluates none of the tasks after it. *)
Theorem unreadable_timestamp_ends_pass now before task after tr0 :
  completed task = 0 ->
  strptime (deadline task) = None \/ strptime (notify_time task) = None ->
  (exists tr e, run (check_deadlines now (before ++ task :: after)) tr0 = (tr, Raised e))
  /\ (forall tr1, run (check_deadlines now before) tr0 = (tr1, Returned ()) ->
      exists data, (data = deadline task \/ data = notify_time task)
        /\ strptime data = None
        /\ run (check_task now task) tr1 = (tr1, Raised (ValueError data))
        /\ run (check_deadlines now (before ++ task :: after)) tr0
           = (tr1, Raised (ValueError data))).
Proof.
  intros Hc Hbad.
  assert (Htask : forall tr1, exists data,
             (data = deadline task \/ data = notify_time task)
             /\ strptime data = None
             /\ run (check_task now task) tr1 = (tr1, Raised (ValueError data))).
  { intros tr1. unfold check_task, truthy, parse. rewrite Hc. cbn [Z.eqb negb].
    destruct (strptime (deadline task)) as [d|] eqn:Ed.
    - destruct Hbad as [Hbad|Hbad]; [discriminate|].
      exists (notify_time task). rewrite Hbad. repeat split; auto.
    - exists (deadline task). rewrite Ed. repeat split; auto. }
  split.
  - rewrite run_check_deadlines_app.
    destruct (run (check_deadlines now before) tr0) as [tr1 [[]|e]]; [|eauto].
    rewrite run_check_deadlines_cons.
    destruct (Htask tr1) as (data & _ & _ & ->). eauto.
  - intros tr1 Hbefore. destruct (Htask tr1) as (data & Hdata & Hnone & Hrun).
    exists data. repeat split; auto.
    now rewrite (run_check_deadlines_reach _ _ _ _ _ _ Hbefore), Hrun.
Qed.

End EvaluatorFacts.

(** ** Properties of the filter selector *)

Section FilterFacts.

Variable strptime : string -> option datetime.

Local Abbreviation filter_tasks := (filter_tasks strptime).
Local Abbreviation nearest_loop := (nearest_loop strptime).
Local Abbreviation nearest_deadline := (nearest_deadline strptime).

Lemma nearest_loop_filter now tasks filtered :
  Forall (fun task => completed task = 0 -> is_Some (strptime (deadline task))) tasks ->
  nearest_loop now tasks filtered
  = Returned (filtered ++ List.filter (nearest_deadline now) tasks).
Proof.
  intros Hall. revert filtered.
  induction Hall as [|task rest Hparse _ IH]; intros filtered; cbn [nearest_loop List.filter].
  - now rewrite app_nil_r.
  - unfold nearest_deadline at 1, due_within_day, truthy, parse.
    destruct (Z.eqb_spec (completed task) 0) as [Hc|Hc]; cbn [negb andb].
    + destruct (Hparse Hc) as [d ->]. cbn [mbind outcome_bind].
      destruct (d - now <? timedelta_days 1).
      * rewrite IH. now rewrite <- app_assoc.
      * apply IH.
    + apply IH.
Qed.

(** C6. The three views.  ['All Tasks'] returns the list it was given; the
    completed view returns, in order, the tasks whose flag is set, whatever
    their deadline strings hold, on a store whose flags are 0 or 1; the
    nearest-deadline view returns, in order, the incomplete tasks whose
    deadline is less than a day after [now], on a store whose incomplete
    tasks have readable deadlines, and so every incomplete task whose deadline
    is already before [now]. *)
Theorem filter_tasks_projection now tasks :
  filter_tasks now tasks "All Tasks" = Returned tasks
  /\ (Forall boolean_flag tasks ->
      filter_tasks now tasks "View Completed Tasks"
      = Returned (List.filter (fun task => truthy (completed task)) tasks))
  /\ (Forall (fun task => completed task = 0 -> is_Some (strptime (deadline task))) tasks ->
      filter_tasks now tasks "View Nearest Deadline Tasks (within 1 day)"
      = Returned (List.filter (nearest_deadline now) tasks)
      /\ (forall task d, In task tasks -> completed task = 0 ->
            strptime (deadline task) = Some d ->
            (nearest_deadline now task = true <-> d - now < timedelta_days 1)
            /\ (d < now -> In task (List.filter (nearest_deadline now) tasks)))).
Proof.
  split; [reflexivity|]. split.
  - intros Hflags. unfold filter_tasks. cbn [String.eqb Ascii.eqb Bool.eqb].
    f_equal. apply List.filter_ext_in. intros task Hin.
    rewrite List.Forall_forall in Hflags. unfold truthy.
    destruct (Hflags task Hin) as [-> | ->]; reflexivity.
  - intros Hparse. split.
    + unfold filter_tasks.
      replace ("View Nearest Deadline Tasks (within 1 day)" =? "View Completed Tasks")%string
        with false by reflexivity.
      rewrite String.eqb_refl. now rewrite nearest_loop_filter.
    + intros task d Hin Hc Hd.
      assert (Hiff : nearest_deadline now task = true <-> d - now < timedelta_days 1).
      { unfold nearest_deadline, due_within_day, truthy. rewrite Hc, Hd. cbn [Z.eqb negb andb].
        apply Z.ltb_lt. }
      split; [exact Hiff|]. intros Hlt. apply List.filter_In. split; [exact Hin|].
      apply Hiff. unfold timedelta_days, MINUTES_PER_DAY, MICROS_PER_MINUTE. lia.
Qed.

(** C10. Any view other than the two recognised strings returns the list it
    was given: there is no error branch. *)
Theorem filter_tasks_unknown_view now tasks filter_option :
  filter_option <> "View Completed Tasks" ->
  filter_option <> "View Nearest Deadline Tasks (within 1 day)" ->
  filter_tasks now tasks filter_option = Returned tasks.
Proof.
  intros H1 H2. unfold filter_tasks.
  apply String.eqb_neq in H1. apply String.eqb_neq in H2. now rewrite H1, H2.
Qed.

End FilterFacts.

(** ** Properties of the store and of the form *)

Lemma add_task_flags name deadline notify_time assigned_by designation priority db :
  Forall boolean_flag (get_tasks db) ->
  Forall boolean_flag
    (get_tasks (add_task name deadline notify_time assigned_by designation priority db)).
Proof.
  intros H. unfold get_tasks, add_task. cbn [rows].
  apply List.Forall_app. split; [exact H|]. constructor; [now left | constructor].
Qed.

Lemma update_task_flags id name deadline notify_time assigned_by designation priority flag db :
  flag = 0 \/ flag = 1 ->
  Forall boolean_flag (get_tasks db) ->
  Forall boolean_flag
    (get_tasks (update_task id name deadline notify_time assigned_by designation priority flag db)).
Proof.
  intros Hflag H. unfold get_tasks, update_task. cbn [rows].
  apply List.Forall_map. eapply List.Forall_impl; [|exact H].
  intros row Hrow. now destruct (task_id row =? id).
Qed.

Lemma delete_task_flags id db :
  Forall boolean_flag (get_tasks db) -> Forall boolean_flag (get_tasks (delete_task id db)).
Proof.
  intros H. unfold get_tasks, delete_task. cbn [rows].
  rewrite List.Forall_forall in *. intros row Hin. apply List.filter_In in Hin. now apply H.
Qed.

Section SubmissionFacts.

Variable strftime : datetime -> string.

Local Abbreviation on_submit := (on_submit strftime).

(** C7. A submission with an empty name, assigner or designation, or with a
    deadline or a notify time before [now], is answered with one error line
    and leaves the store as it was: the same rows, the same number of them. *)
Theorem invalid_submission_rejected now form db :
  form_name form = "" \/ form_assigned_by form = "" \/ form_designation form = ""
  \/ combine (deadline_date form) (deadline_time form) < now
  \/ combine (notify_date form) (notify_time_val form) < now ->
  fst (on_submit now form db) = db
  /\ get_tasks (fst (on_submit now form db)) = get_tasks db
  /\ length (get_tasks (fst (on_submit now form db))) = length (get_tasks db)
  /\ exists line, snd (on_submit now form db) = [StError line].
Proof.
  intros Hbad.
  assert (H : fst (on_submit now form db) = db
              /\ exists line, snd (on_submit now form db) = [StError line]).
  { unfold on_submit.
    destruct (String.eqb_spec (form_name form) "") as [|Hn]; [eauto|].
    destruct (String.eqb_spec (form_assigned_by form) "") as [|Ha]; [eauto|].
    destruct (String.eqb_spec (form_designation form) "") as [|Hd]; [eauto|].
    destruct (Z.ltb_spec (combine (deadline_date form) (deadline_time form)) now);
      [cbn [orb]; eauto|].
    destruct (Z.ltb_spec (combine (notify_date form) (notify_time_val form)) now);
      [cbn [orb]; eauto|].
    exfalso. destruct Hbad as [?|[?|[?|[?|?]]]]; try contradiction; lia. }
  destruct H as [Hdb Hline]. rewrite Hdb. auto.
Qed.

(** A submission that passes the checks appends one incomplete task. *)
Lemma valid_submission_accepted now form db :
  form_name form <> "" -> form_assigned_by form <> "" -> form_designation form <> "" ->
  now <= combine (deadline_date form) (deadline_time form) ->
  now <= combine (notify_date form) (notify_time_val form) ->
  exists task, get_tasks (fst (on_submit now form db)) = get_tasks db ++ [task]
    /\ completed task = 0 /\ name task = form_name form.
Proof.
  intros Hn Ha Hd Hdl Hnt. unfold on_submit.
  apply String.eqb_neq in Hn. apply String.eqb_neq in Ha. apply String.eqb_neq in Hd.
  rewrite Hn, Ha, Hd.
  apply Z.ltb_ge in Hdl. apply Z.ltb_ge in Hnt. rewrite Hdl, Hnt. cbn [orb fst].
  eexists. split; [reflexivity|]. split; reflexivity.
Qed.

Lemma on_submit_flags now form db :
  Forall boolean_flag (get_tasks db) ->
  Forall boolean_flag (get_tasks (fst (on_submit now form db))).
Proof.
  intros H. unfold on_submit.
  repeat match goal with |- context [if ?b then _ else _] => destruct b end;
    cbn [fst]; auto using add_task_flags.
Qed.

End SubmissionFacts.

(** ** Properties of the periodic trigger *)

Lemma session_state_init sid sid' p :
  session_state sid' (init_scheduler sid p) !! "scheduler_started"
  = (if bool_decide (sid = sid') then Some true
     else session_state sid' p !! "scheduler_started")
  \/ (session_state sid p !! "scheduler_started" <> None
      /\ init_scheduler sid p = p).
Proof.
  unfold init_scheduler. case_bool_decide as Hflag; [left | right; auto].
  unfold session_state at 1. cbn [session_states].
  case_bool_decide as Hsid.
  - subst sid'. rewrite lookup_insert_eq. cbn [default]. apply lookup_insert_eq.
  - rewrite lookup_insert_ne by exact Hsid. reflexivity.
Qed.

Lemma active_triggers_init sid p :
  active_triggers (init_scheduler sid p)
  = if bool_decide (session_state sid p !! "scheduler_started" = None)
    then S (active_triggers p) else active_triggers p.
Proof.
  unfold init_scheduler. case_bool_decide; [|reflexivity].
  unfold active_triggers. cbn [schedulers].
  rewrite List.filter_app, List.flat_map_app, length_app. cbn. lia.
Qed.

Lemma triggers_match_init sid p started :
  triggers_match p started -> triggers_match (init_scheduler sid p) ({[sid]} ∪ started).
Proof.
  intros [Hcount Hflags].
  destruct (decide (session_state sid p !! "scheduler_started" = None)) as [Hnone|Hset].
  - assert (Hfresh : sid ∉ started) by now apply Hflags.
    split.
    + rewrite active_triggers_init, bool_decide_eq_true_2 by exact Hnone.
      rewrite size_union by set_solver. rewrite size_singleton, Hcount. reflexivity.
    + intros sid'. destruct (session_state_init sid sid' p) as [Heq|[Hno _]];
        [|contradiction].
      rewrite Heq. case_bool_decide as Hsid.
      * subst. split; [discriminate | set_solver].
      * rewrite Hflags. set_solver.
  - assert (Hstay : init_scheduler sid p = p).
    { unfold init_scheduler. now rewrite bool_decide_eq_false_2. }
    assert (Hin : sid ∈ started).
    { destruct (decide (sid ∈ started)) as [|Hout]; [assumption|].
      apply Hflags in Hout. contradiction. }
    rewrite Hstay. replace ({[sid]} ∪ started) with started by set_solver.
    split; assumption.
Qed.

Lemma triggers_match_init_all sids p started :
  triggers_match p started ->
  triggers_match (init_all sids p) (list_to_set sids ∪ started).
Proof.
  revert p started. induction sids as [|sid sids IH]; intros p started Hp.
  - cbn. replace (∅ ∪ started) with started by set_solver. exact Hp.
  - cbn [init_all foldl list_to_set].
    replace ({[sid]} ∪ list_to_set sids ∪ started)
      with (list_to_set sids ∪ ({[sid]} ∪ started)) by set_solver.
    apply IH. now apply triggers_match_init.
Qed.

Lemma triggers_match_fresh : triggers_match fresh_process ∅.
Proof.
  split; [reflexivity|]. intros sid. split; [set_solver|]. intros _.
  unfold session_state, fresh_process. cbn [session_states].
  rewrite lookup_empty. cbn [default]. apply lookup_empty.
Qed.

(** How far the guard of [init_scheduler] reaches.  It is kept in the state
    of the session that runs the script, so [init_scheduler] run again in a
    session that ran it changes nothing, while a process in which the
    sessions [sids] ran it has as many active triggers as there are distinct
    sessions among them. *)
Theorem one_trigger_per_session sids sid p :
  init_scheduler sid (init_scheduler sid p) = init_scheduler sid p
  /\ active_triggers (init_all sids fresh_process) = size (list_to_set sids : gset nat).
Proof.
  split.
  - destruct (session_state_init sid sid p) as [Heq|[_ Hstay]].
    + rewrite bool_decide_eq_true_2 in Heq by reflexivity.
      unfold init_scheduler at 1. rewrite bool_decide_eq_false_2; [reflexivity|].
      rewrite Heq. discriminate.
    + now rewrite !Hstay.
  - destruct (triggers_match_init_all sids fresh_process ∅ triggers_match_fresh) as [H _].
    rewrite H. f_equal. set_solver.
Qed.

(** ** The model at work on the sample store *)

(** An overdue task is reported as overdue; the same task, completed, is not
    reported. *)
Example scenario_overdue :
  run (check_deadlines strptime_padded always_delivers noon [task_late]) []
  = ([Notify "Task Overdue!" "Task 'report' is overdue!" 10;
      StWarning "Task 'report' is overdue!"], Returned ()).
Proof. reflexivity. Qed.

Example scenario_overdue_completed :
  run (check_deadlines strptime_padded always_delivers noon
         [mkTask 1 "report" "2024-05-01 11:59" "1970-01-01 00:00" "Ann" "Lead" "High" 1]) []
  = ([], Returned ()).
Proof. reflexivity. Qed.

(** A notify time one minute ago and a deadline a day ahead: the notification
    reminder only. *)
Example scenario_notification_only :
  run (check_deadlines strptime_padded always_delivers noon [task_far]) []
  = ([Notify "Task Notification" "Task 'taxes' notification time reached!" 10;
      StInfo "Task 'taxes' notification time reached!"], Returned ()).
Proof. reflexivity. Qed.

(** A notify time an hour ago and a deadline in ten minutes: both reminders. *)
Example scenario_notification_and_approaching :
  run (check_deadlines strptime_padded always_delivers noon [task_soon]) []
  = ([Notify "Task Notification" "Task 'call' notification time reached!" 10;
      StInfo "Task 'call' notification time reached!";
      Notify "Task Deadline Approaching" "Task 'call' deadline is approaching!" 10;
      StInfo "Task 'call' deadline is approaching!"], Returned ()).
Proof. reflexivity. Qed.

Example scenario_views :
  filter_tasks strptime_padded noon [task_late; task_soon; task_far; task_done]
    "View Nearest Deadline Tasks (within 1 day)" = Returned [task_late; task_soon]
  /\ filter_tasks strptime_padded noon [task_late; task_soon; task_far; task_done]
       "View Completed Tasks" = Returned [task_done].
Proof. split; reflexivity. Qed.

(** Outside the invariants of the store the views are not projections: an
    incomplete task with an unreadable deadline makes the nearest-deadline
    view raise, and a flag other than 0 and 1 counts as completed for the
    evaluator and the nearest-deadline view but not for the completed view. *)
Example scenario_view_unreadable_deadline :
  filter_tasks strptime_padded noon
    [task_late; mkTask 6 "audit" "tomorrow" "1970-01-01 00:00" "Flo" "CFO" "Low" 0]
    "View Nearest Deadline Tasks (within 1 day)" = Raised (ValueError "tomorrow").
Proof. reflexivity. Qed.

Example scenario_flag_two :
  filter_tasks strptime_padded noon
    [mkTask 7 "audit" "2024-05-01 11:00" "1970-01-01 00:00" "Flo" "CFO" "Low" 2]
    "View Completed Tasks" = Returned []
  /\ run (check_deadlines strptime_padded always_delivers noon
            [mkTask 7 "audit" "2024-05-01 11:00" "1970-01-01 00:00" "Flo" "CFO" "Low" 2]) []
     = ([], Returned ()).
Proof. split; reflexivity. Qed.

Example scenario_valid_submission :
  on_submit strftime_padded noon form_valid store_of_three
  = (mkDB [task_late; task_soon; task_done;
           mkTask 5 "review" "2024-05-03 09:00" "2024-05-02 09:00" "Ann" "Lead" "Medium" 0] 5,
     [StSuccess "Task added successfully!"; StRerun]).
Proof. reflexivity. Qed.

(** ** The theorems at the sample store *)

Lemma always_delivers_reliable : reliable always_delivers.
Proof. intros tr title message. reflexivity. Defined.

(** C1, the claim as stated, at the sample store: the sink raises on the
    overdue notification of the first task; the second task is incomplete
    and overdue, and the pass ends before it with no overdue event for it. *)
Lemma overdue_task_unreported :
  In task_invoice [task_late; task_invoice]
  /\ completed task_invoice = 0
  /\ strptime_padded (deadline task_invoice) = Some (mk_datetime 2024 5 1 10 0)
  /\ mk_datetime 2024 5 1 10 0 < noon
  /\ run (check_deadlines strptime_padded fails_for_report noon [task_late; task_invoice]) []
     = ([], Raised (NotifyError "Task Overdue!" "Task 'report' is overdue!"))
  /\ count_events TITLE_OVERDUE
       (fst (run (check_deadlines strptime_padded fails_for_report noon
                    [task_late; task_invoice]) [])) <> 1%nat.
Proof.
  split; [right; left; reflexivity|]. repeat (split; [reflexivity|]). discriminate.
Qed.

Lemma overdue_task_one_overdue_event_witness :
  completed task_late = 0
  /\ strptime_padded (deadline task_late) = Some (mk_datetime 2024 5 1 11 59)
  /\ mk_datetime 2024 5 1 11 59 < noon
  /\ delivered always_delivers []
       (notification_part noon EPOCH (name task_late) ++ overdue_event (name task_late)) = true
  /\ run (check_deadlines strptime_padded always_delivers noon
            ([task_done] ++ task_late :: [task_soon])) []
     = run (check_deadlines strptime_padded always_delivers noon [task_soon])
         ([] ++ notification_part noon EPOCH (name task_late) ++ overdue_event (name task_late))
  /\ count_events TITLE_OVERDUE
       (notification_part noon EPOCH (name task_late) ++ overdue_event (name task_late)) = 1%nat.
Proof.
  split; [reflexivity|]. split; [reflexivity|]. split; [reflexivity|]. split; [reflexivity|].
  destruct (overdue_task_one_overdue_event strptime_padded always_delivers noon
              [task_done] task_late [task_soon] (mk_datetime 2024 5 1 11 59) EPOCH [] [])
    as (_ & Hdelivered);
    [reflexivity | reflexivity | reflexivity | reflexivity | reflexivity |].
  destruct (Hdelivered eq_refl) as (_ & Hpass & Hone & _).
  split; [exact Hpass | exact Hone].
Defined.

(** C2, the claim as stated, at the sample store: the task is incomplete and
    ten minutes from its deadline, its notify time is reached, and the sink
    raises on that notification; the pass ends there, and no approaching
    event is performed for the task. *)
Lemma approaching_task_unreported :
  In task_soon [task_soon]
  /\ completed task_soon = 0
  /\ strptime_padded (deadline task_soon) = Some (mk_datetime 2024 5 1 12 10)
  /\ (0 <= mk_datetime 2024 5 1 12 10 - noon
      /\ mk_datetime 2024 5 1 12 10 - noon < timedelta_minutes 30)
  /\ run (check_deadlines strptime_padded fails_for_notification noon [task_soon]) []
     = ([], Raised (NotifyError "Task Notification" "Task 'call' notification time reached!"))
  /\ count_events TITLE_APPROACHING
       (fst (run (check_deadlines strptime_padded fails_for_notification noon [task_soon]) []))
     <> 1%nat.
Proof.
  split; [left; reflexivity|]. split; [reflexivity|]. split; [reflexivity|].
  split; [split; [discriminate | reflexivity]|]. split; [reflexivity | discriminate].
Qed.

Lemma approaching_task_one_approaching_event_witness :
  completed task_soon = 0
  /\ (0 <= mk_datetime 2024 5 1 12 10 - noon
      /\ mk_datetime 2024 5 1 12 10 - noon < timedelta_minutes 30)
  /\ delivered always_delivers (overdue_event "report")
       (notification_part noon (mk_datetime 2024 5 1 11 0) (name task_soon)
        ++ approaching_event (name task_soon)) = true
  /\ run (check_deadlines strptime_padded always_delivers noon
            ([task_late] ++ task_soon :: [task_far])) []
     = run (check_deadlines strptime_padded always_delivers noon [task_far])
         (overdue_event "report"
          ++ notification_part noon (mk_datetime 2024 5 1 11 0) (name task_soon)
          ++ approaching_event (name task_soon))
  /\ count_events TITLE_APPROACHING
       (notification_part noon (mk_datetime 2024 5 1 11 0) (name task_soon)
        ++ approaching_event (name task_soon)) = 1%nat.
Proof.
  split; [reflexivity|]. split; [split; [discriminate | reflexivity]|]. split; [reflexivity|].
  destruct (approaching_task_one_approaching_event strptime_padded always_delivers noon
              [task_late] task_soon [task_far]
              (mk_datetime 2024 5 1 12 10) (mk_datetime 2024 5 1 11 0) [] (overdue_event "report"))
    as (_ & Hdelivered);
    [reflexivity | reflexivity | reflexivity | reflexivity
    | split; [discriminate | reflexivity] |].
  destruct (Hdelivered eq_refl) as (_ & Hpass & Hone & _).
  split; [exact Hpass | exact Hone].
Defined.

Lemma completed_task_no_event_witness :
  completed task_done <> 0
  /\ strptime_padded (deadline task_done) = None
  /\ run (check_task strptime_padded fails_for_report noon task_done) [] = ([], Returned ())
  /\ run (check_deadlines strptime_padded fails_for_report noon
            ([task_soon] ++ task_done :: [task_far])) []
     = run (check_deadlines strptime_padded fails_for_report noon ([task_soon] ++ [task_far])) [].
Proof.
  split; [discriminate|]. split; [reflexivity|].
  destruct (completed_task_no_event strptime_padded fails_for_report noon
              [task_soon] task_done [task_far] []) as [Htask Hpass];
    [discriminate|].
  split; [apply Htask | exact Hpass].
Defined.

(** C4, the claim as stated, at the sample store: the second task is
    incomplete and its notify time, one minute ago, is after the sentinel;
    the sink raises on the overdue notification of the first task, the pass
    ends there, and no notification-time event is performed for the second. *)
Lemma due_notification_unsent :
  In task_far [task_late; task_far]
  /\ completed task_far = 0
  /\ strptime_padded (notify_time task_far) = Some (mk_datetime 2024 5 1 11 59)
  /\ (noon >= mk_datetime 2024 5 1 11 59 /\ mk_datetime 2024 5 1 11 59 > EPOCH)
  /\ run (check_deadlines strptime_padded fails_for_report noon [task_late; task_far]) []
     = ([], Raised (NotifyError "Task Overdue!" "Task 'report' is overdue!"))
  /\ count_events TITLE_NOTIFICATION
       (fst (run (check_deadlines strptime_padded fails_for_report noon
                    [task_late; task_far]) [])) = 0%nat.
Proof.
  split; [right; left; reflexivity|]. split; [reflexivity|]. split; [reflexivity|].
  split; [split; [discriminate | reflexivity]|]. split; reflexivity.
Qed.

Lemma notification_time_event_witness :
  completed task_far = 0
  /\ (noon >= mk_datetime 2024 5 1 11 59 /\ mk_datetime 2024 5 1 11 59 > EPOCH)
  /\ delivered always_delivers (overdue_event "report")
       (contract_events noon (mk_datetime 2024 5 1 11 59) (mk_datetime 2024 5 2 12 0)
          (name task_far)) = true
  /\ count_events TITLE_NOTIFICATION
       (contract_events noon (mk_datetime 2024 5 1 11 59) (mk_datetime 2024 5 2 12 0)
          (name task_far)) = 1%nat
  /\ (exists ext out,
        run (check_task strptime_padded fails_for_notification noon task_far)
          (overdue_event "report") = (overdue_event "report" ++ ext, out)
        /\ count_events TITLE_NOTIFICATION ext = 0%nat)
  /\ count_events TITLE_NOTIFICATION
       (contract_events noon EPOCH (mk_datetime 2024 5 1 11 59) (name task_late)) = 0%nat.
Proof.
  split; [reflexivity|]. split; [split; [discriminate | reflexivity]|]. split; [reflexivity|].
  destruct (notification_time_event strptime_padded always_delivers noon
              [task_late] task_far [task_done]
              (mk_datetime 2024 5 2 12 0) (mk_datetime 2024 5 1 11 59) [] (overdue_event "report"))
    as (_ & Hdelivered);
    [reflexivity | reflexivity | reflexivity | reflexivity |].
  destruct (Hdelivered eq_refl) as (_ & Hone & _).
  destruct (notification_time_event strptime_padded fails_for_notification noon
              [task_late] task_far [task_done]
              (mk_datetime 2024 5 2 12 0) (mk_datetime 2024 5 1 11 59) [] (overdue_event "report"))
    as ((ext & out & Hrun & _ & Hzero & _) & _);
    [reflexivity | reflexivity | reflexivity | reflexivity |].
  destruct (notification_time_event strptime_padded always_delivers noon
              [] task_late [task_done] (mk_datetime 2024 5 1 11 59) EPOCH [] [])
    as (_ & Hdelivered');
    [reflexivity | reflexivity | reflexivity | reflexivity |].
  destruct (Hdelivered' eq_refl) as (_ & _ & _ & Hsentinel & _).
  split; [apply Hone; split; [discriminate | reflexivity]|].
  split; [|apply Hsentinel; reflexivity].
  exists ext, out. split; [exact Hrun|]. apply Hzero. intros (_ & _ & Hsink). discriminate Hsink.
Defined.

(** C5, the claim as stated, at the sample store: the sink raises on the
    overdue notification of the first task; the second task is incomplete and
    due for two reminders, which the same sink delivers when the task is
    evaluated; the pass ends with the sink's error and has performed nothing
    for the second task. *)
Lemma sink_failure_skips_remaining_tasks :
  run (check_deadlines strptime_padded fails_for_report noon [task_late; task_soon]) []
  = ([], Raised (NotifyError "Task Overdue!" "Task 'report' is overdue!"))
  /\ run (check_deadlines strptime_padded fails_for_report noon [task_soon]) []
     = (notification_event "call" ++ approaching_event "call", Returned ())
  /\ ~ In (Notify "Task Deadline Approaching" "Task 'call' deadline is approaching!" 10)
          (fst (run (check_deadlines strptime_padded fails_for_report noon
                       [task_late; task_soon]) [])).
Proof.
  split; [reflexivity|]. split; [reflexivity|]. intros [].
Qed.

Lemma sink_failure_ends_pass_witness :
  run (check_deadlines strptime_padded fails_for_report noon [task_done]) [] = ([], Returned ())
  /\ mk_datetime 2024 5 1 11 59 < noon
  /\ fails_for_report ([] ++ notification_part noon EPOCH (name task_late))
       TITLE_OVERDUE (overdue_message (name task_late)) = true
  /\ run (check_deadlines strptime_padded fails_for_report noon
            ([task_done] ++ task_late :: [task_soon; task_far])) []
     = ([] ++ notification_part noon EPOCH (name task_late),
        Raised (NotifyError TITLE_OVERDUE (overdue_message (name task_late)))).
Proof.
  split; [reflexivity|]. split; [reflexivity|]. split; [reflexivity|].
  destruct (sink_failure_ends_pass strptime_padded fails_for_report noon
              [task_done] task_late [task_soon; task_far]
              (mk_datetime 2024 5 1 11 59) EPOCH [] [])
    as (_ & Hoverdue & _);
    [reflexivity | reflexivity | reflexivity | reflexivity |].
  apply Hoverdue; reflexivity.
Defined.

Lemma filter_tasks_projection_witness :
  Forall boolean_flag [task_late; task_soon; task_far; task_done]
  /\ filter_tasks strptime_padded noon [task_late; task_soon; task_far; task_done]
       "View Completed Tasks"
     = Returned (List.filter (fun task => truthy (completed task))
                   [task_late; task_soon; task_far; task_done])
  /\ filter_tasks strptime_padded noon [task_late; task_soon; task_far; task_done]
       "View Nearest Deadline Tasks (within 1 day)"
     = Returned (List.filter (nearest_deadline strptime_padded noon)
                   [task_late; task_soon; task_far; task_done]).
Proof.
  assert (Hflags : Forall boolean_flag [task_late; task_soon; task_far; task_done]).
  { repeat (constructor; [first [left; reflexivity | right; reflexivity]|]). constructor. }
  destruct (filter_tasks_projection strptime_padded noon
              [task_late; task_soon; task_far; task_done]) as (_ & Hcompleted & Hnearest).
  split; [exact Hflags|]. split; [exact (Hcompleted Hflags)|].
  assert (Hparse : Forall (fun task => completed task = 0 ->
                                     is_Some (strptime_padded (deadline task)))
                     [task_late; task_soon; task_far; task_done]).
  { repeat (constructor; [first [intros _; eexists; reflexivity | discriminate]|]).
    constructor. }
  exact (proj1 (Hnearest Hparse)).
Defined.

Lemma filter_tasks_unknown_view_witness :
  filter_tasks strptime_padded noon [task_late; task_done; task_corrupt] "All Tasks"
  = Returned [task_late; task_done; task_corrupt].
Proof.
  apply (filter_tasks_unknown_view strptime_padded noon
           [task_late; task_done; task_corrupt] "All Tasks"); discriminate.
Defined.

Lemma invalid_submission_rejected_witness :
  combine (deadline_date form_past_deadline) (deadline_time form_past_deadline) < noon
  /\ fst (on_submit strftime_padded noon form_past_deadline store_of_three) = store_of_three
  /\ length (get_tasks (fst (on_submit strftime_padded noon form_past_deadline store_of_three)))
     = length (get_tasks store_of_three).
Proof.
  split; [reflexivity|].
  destruct (invalid_submission_rejected strftime_padded noon form_past_deadline store_of_three)
    as (Hstore & _ & Hcount & _);
    [right; right; right; left; reflexivity|].
  split; [exact Hstore | exact Hcount].
Defined.

Lemma unreadable_timestamp_ends_pass_witness :
  completed task_corrupt = 0
  /\ strptime_padded (notify_time task_corrupt) = None
  /\ exists tr e,
       run (check_deadlines strptime_padded always_delivers noon
              ([task_late] ++ task_corrupt :: [task_soon])) [] = (tr, Raised e).
Proof.
  split; [reflexivity|]. split; [reflexivity|].
  apply (unreadable_timestamp_ends_pass strptime_padded always_delivers noon
           [task_late] task_corrupt [task_soon] []); [reflexivity | right; reflexivity].
Defined.

Example scenario_unreadable_timestamp :
  run (check_deadlines strptime_padded always_delivers noon
         [task_late; task_corrupt; task_soon]) []
  = (overdue_event "report", Raised (ValueError "01/05/2024 10:00")).
Proof. reflexivity. Qed.

(** C9. The guard against a second trigger misses across sessions: with two
    sessions of one process running the script (a second tab, or a reload of
    the page), [init_scheduler] starts a scheduler for each, so two recurring
    triggers are active where the guard is there to keep it at one. *)
Lemma two_sessions_two_triggers :
  active_triggers (init_scheduler 2%nat (init_scheduler 1%nat fresh_process)) = 2%nat
  /\ ~ (active_triggers (init_scheduler 2%nat (init_scheduler 1%nat fresh_process)) <= 1)%nat.
Proof.
  assert (H : active_triggers (init_scheduler 2%nat (init_scheduler 1%nat fresh_process))
              = 2%nat) by (vm_compute; reflexivity).
  split; [exact H | rewrite H; lia].
Qed.

Example scenario_rerun_same_session :
  active_triggers (init_all [1%nat; 1%nat; 1%nat] fresh_process) = 1%nat.
Proof. vm_compute. reflexivity. Qed.

(** ** More on the store *)

Lemma ids_add_task name deadline notify_time assigned_by designation priority db :
  ids (add_task name deadline notify_time assigned_by designation priority db)
  = ids db ++ [seq db + 1].
Proof. unfold ids, add_task. cbn [rows]. now rewrite map_app. Qed.

Lemma ids_update_task id name deadline notify_time assigned_by designation priority flag db :
  ids (update_task id name deadline notify_time assigned_by designation priority flag db)
  = ids db.
Proof.
  unfold ids, update_task. cbn [rows]. rewrite map_map. apply map_ext.
  intros row. destruct (Z.eqb_spec (task_id row) id) as [->|]; reflexivity.
Qed.

Lemma ids_delete_task id db :
  ids (delete_task id db) = List.filter (fun i => negb (i =? id)) (ids db).
Proof.
  unfold ids, delete_task. cbn [rows].
  induction (rows db) as [|row rest IH]; [reflexivity|].
  cbn [List.filter map]. destruct (task_id row =? id); cbn [negb map]; now rewrite IH.
Qed.

Lemma well_keyed_exec db op : well_keyed db -> well_keyed (exec db op).
Proof.
  intros [Hnodup Hle]. destruct op as [n d nt a g p | id n d nt a g p c | id]; cbn [exec].
  - unfold well_keyed. rewrite ids_add_task. cbn [add_task seq]. split.
    + apply List.NoDup_app; [exact Hnodup | repeat constructor; intros [] |].
      intros i Hi [<-|[]]. rewrite List.Forall_forall in Hle. specialize (Hle _ Hi). lia.
    + apply List.Forall_app. split.
      * eapply List.Forall_impl; [|exact Hle]. cbn. intros; lia.
      * repeat constructor. lia.
  - unfold well_keyed. rewrite ids_update_task. now split.
  - unfold well_keyed. rewrite ids_delete_task. cbn [delete_task seq]. split.
    + now apply List.NoDup_filter.
    + rewrite List.Forall_forall in *. intros i Hi. apply List.filter_In in Hi. now apply Hle.
Qed.

(** X1. Whatever the program does to the table, in whatever order, keys stay
    unique and no key is beyond the last one handed out. *)
Theorem store_keys_stay_unique ops db :
  well_keyed db -> well_keyed (exec_all ops db).
Proof.
  revert db. induction ops as [|op ops IH]; intros db Hdb; [exact Hdb|].
  cbn [exec_all foldl]. apply IH. now apply well_keyed_exec.
Qed.

(** X2. [add_task] appends one row after the rows there were, leaves those as
    they are, and the new row is incomplete, holds the six values given and
    has a key that no row of the store had. *)
Theorem add_task_appends_fresh_row name deadline notify_time assigned_by designation priority db :
  well_keyed db ->
  get_tasks (add_task name deadline notify_time assigned_by designation priority db)
  = get_tasks db
    ++ [mkTask (seq db + 1) name deadline notify_time assigned_by designation priority 0]
  /\ ~ In (seq db + 1) (ids db)
  /\ find_task (seq db + 1)
       (add_task name deadline notify_time assigned_by designation priority db)
     = Some (mkTask (seq db + 1) name deadline notify_time assigned_by designation priority 0).
Proof.
  intros [_ Hle].
  assert (Hfresh : ~ In (seq db + 1) (ids db)).
  { intros Hin. rewrite List.Forall_forall in Hle. specialize (Hle _ Hin). lia. }
  split; [reflexivity|]. split; [exact Hfresh|].
  unfold find_task, add_task. cbn [rows].
  unfold ids in Hfresh. induction (rows db) as [|row rest IH].
  - cbn. now rewrite Z.eqb_refl.
  - cbn [app List.find]. destruct (Z.eqb_spec (task_id row) (seq db + 1)) as [E|_].
    + exfalso. apply Hfresh. left. exact E.
    + apply IH. intros Hin. apply Hfresh. now right.
Qed.

Lemma exec_all_keys ops db i :
  In i (ids (exec_all ops db)) -> In i (ids db) \/ seq db < i.
Proof.
  revert db. induction ops as [|op ops IH]; intros db; [now left|].
  cbn [exec_all foldl]. intros Hin. apply IH in Hin.
  destruct op as [n d nt a g p | id n d nt a g p c | id]; cbn [exec] in Hin.
  - rewrite ids_add_task in Hin. cbn [add_task seq] in Hin.
    destruct Hin as [Hin|Hlt]; [|right; lia].
    apply List.in_app_or in Hin. destruct Hin as [Hin|[<-|[]]]; [now left | right; lia].
  - rewrite ids_update_task in Hin. exact Hin.
  - rewrite ids_delete_task in Hin. cbn [delete_task seq] in Hin.
    destruct Hin as [Hin|Hlt]; [|now right].
    apply List.filter_In in Hin. now left.
Qed.

(** X3. A key is never handed out twice: once the row under a key that was
    handed out is deleted, no later sequence of operations brings a row under
    that key back. *)
Theorem deleted_key_never_reused ops id db :
  id <= seq db ->
  ~ In id (ids (exec_all ops (delete_task id db))).
Proof.
  intros Hle Hin. apply exec_all_keys in Hin. cbn [delete_task seq] in Hin.
  destruct Hin as [Hin|Hlt]; [|lia].
  rewrite ids_delete_task in Hin. apply List.filter_In in Hin.
  destruct Hin as [_ Hne]. now rewrite Z.eqb_refl in Hne.
Qed.

(** X4. [update_task] under a key that no row has changes nothing and reports
    nothing. *)
Theorem update_task_absent_key id name deadline notify_time assigned_by designation priority
    flag db :
  ~ In id (ids db) ->
  update_task id name deadline notify_time assigned_by designation priority flag db = db.
Proof.
  intros Habsent. unfold update_task. destruct db as [rs s]. cbn [rows seq]. f_equal.
  unfold ids in Habsent. cbn [rows] in Habsent.
  induction rs as [|row rest IH]; [reflexivity|].
  cbn [map]. destruct (Z.eqb_spec (task_id row) id) as [E|_].
  - exfalso. apply Habsent. left. exact E.
  - f_equal. apply IH. intros Hin. apply Habsent. now right.
Qed.

Lemma find_task_update_other id id' name deadline notify_time assigned_by designation priority
    flag db :
  id' <> id ->
  find_task id' (update_task id name deadline notify_time assigned_by designation priority flag db)
  = find_task id' db.
Proof.
  intros Hne. unfold find_task, update_task. cbn [rows].
  induction (rows db) as [|row rest IH]; [reflexivity|].
  cbn [map List.find]. destruct (Z.eqb_spec (task_id row) id) as [E|_].
  - cbn [task_id]. rewrite E. destruct (Z.eqb_spec id id') as [E'|_]; [congruence | exact IH].
  - destruct (task_id row =? id'); [reflexivity | exact IH].
Qed.

(** X5. [update_task] under a key of the store replaces the row under that
    key by the eight values given, and changes no row under another key, no
    key and not the number of rows. *)
Theorem update_task_replaces_row id name deadline notify_time assigned_by designation priority
    flag db :
  In id (ids db) ->
  find_task id (update_task id name deadline notify_time assigned_by designation priority flag db)
  = Some (mkTask id name deadline notify_time assigned_by designation priority flag)
  /\ (forall id', id' <> id ->
        find_task id'
          (update_task id name deadline notify_time assigned_by designation priority flag db)
        = find_task id' db)
  /\ ids (update_task id name deadline notify_time assigned_by designation priority flag db)
     = ids db
  /\ length (get_tasks
               (update_task id name deadline notify_time assigned_by designation priority flag db))
     = length (get_tasks db).
Proof.
  intros Hin. split; [|split; [|split]].
  - unfold find_task, update_task, ids in *. cbn [rows].
    induction (rows db) as [|row rest IH]; [destruct Hin|].
    cbn [map List.find]. destruct (Z.eqb_spec (task_id row) id) as [E|Hne].
    + cbn [task_id]. now rewrite Z.eqb_refl.
    + destruct (Z.eqb_spec (task_id row) id) as [|_]; [contradiction|].
      apply IH. destruct Hin as [E|Hin]; [contradiction | exact Hin].
  - intros id' Hne. now apply find_task_update_other.
  - apply ids_update_task.
  - unfold get_tasks, update_task. cbn [rows]. apply length_map.
Qed.

Lemma find_task_delete_other id id' db :
  id' <> id -> find_task id' (delete_task id db) = find_task id' db.
Proof.
  intros Hne. unfold find_task, delete_task. cbn [rows].
  induction (rows db) as [|row rest IH]; [reflexivity|].
  cbn [List.filter List.find]. destruct (Z.eqb_spec (task_id row) id) as [E|_]; cbn [negb].
  - rewrite E. destruct (Z.eqb_spec id id') as [E'|_]; [congruence | exact IH].
  - cbn [List.find]. destruct (task_id row =? id'); [reflexivity | exact IH].
Qed.

Lemma delete_task_absent id db : ~ In id (ids db) -> delete_task id db = db.
Proof.
  intros Habsent. unfold delete_task. destruct db as [rs s]. cbn [rows seq]. f_equal.
  unfold ids in Habsent. cbn [rows] in Habsent.
  induction rs as [|row rest IH]; [reflexivity|].
  cbn [List.filter]. destruct (Z.eqb_spec (task_id row) id) as [E|_]; cbn [negb].
  - exfalso. apply Habsent. left. exact E.
  - f_equal. apply IH. intros Hin. apply Habsent. now right.
Qed.

(** X6. [delete_task] leaves no row under the key, changes no row under
    another key, does nothing under a key that no row has (so deleting twice
    is deleting once), and on a store with unique keys removes exactly one
    row when the key is there. *)
Theorem delete_task_removes_key id db :
  find_task id (delete_task id db) = None
  /\ ~ In id (ids (delete_task id db))
  /\ (forall id', id' <> id -> find_task id' (delete_task id db) = find_task id' db)
  /\ (~ In id (ids db) -> delete_task id db = db)
  /\ delete_task id (delete_task id db) = delete_task id db
  /\ (List.NoDup (ids db) -> In id (ids db) ->
      S (length (get_tasks (delete_task id db))) = length (get_tasks db)).
Proof.
  assert (Hgone : ~ In id (ids (delete_task id db))).
  { rewrite ids_delete_task. intros Hin. apply List.filter_In in Hin.
    destruct Hin as [_ Hne]. now rewrite Z.eqb_refl in Hne. }
  split; [|split; [exact Hgone|split; [|split; [|split]]]].
  - unfold find_task. destruct (List.find _ _) as [row|] eqn:E; [|reflexivity].
    apply List.find_some in E. destruct E as [Hin E]. apply Z.eqb_eq in E.
    exfalso. apply Hgone. unfold ids. rewrite <- E at 1. apply (List.in_map task_id). exact Hin.
  - intros id' Hne. now apply find_task_delete_other.
  - apply delete_task_absent.
  - now apply delete_task_absent.
  - unfold get_tasks, delete_task, ids. cbn [rows].
    induction (rows db) as [|row rest IH]; [intros _ []|].
    cbn [map List.filter]. intros Hnodup Hin. apply List.NoDup_cons_iff in Hnodup.
    destruct Hnodup as [Hfresh Hnodup].
    destruct (Z.eqb_spec (task_id row) id) as [E|Hne]; cbn [negb length].
    + f_equal. rewrite E in Hfresh.
      assert (Hsame : List.filter (fun row0 => negb (task_id row0 =? id)) rest = rest).
      { clear -Hfresh. induction rest as [|r rest IH]; [reflexivity|].
        cbn [List.filter]. destruct (Z.eqb_spec (task_id r) id) as [E|_]; cbn [negb].
        - exfalso. apply Hfresh. left. exact E.
        - f_equal. apply IH. intros Hin. apply Hfresh. now right. }
      now rewrite Hsame.
    + f_equal. apply IH; [exact Hnodup|]. destruct Hin as [E|Hin]; [contradiction | exact Hin].
Qed.

(** ** The row widgets *)

Lemma unique_row (rs : list Task) task row :
  List.NoDup (map task_id rs) -> In task rs -> In row rs ->
  task_id row = task_id task -> row = task.
Proof.
  induction rs as [|r rest IH]; [intros _ []|].
  cbn [map]. intros Hnodup Htask Hrow Hid. apply List.NoDup_cons_iff in Hnodup.
  destruct Hnodup as [Hfresh Hnodup].
  destruct Htask as [->|Htask], Hrow as [->|Hrow].
  - reflexivity.
  - exfalso. apply Hfresh. rewrite <- Hid. now apply (List.in_map task_id).
  - exfalso. apply Hfresh. rewrite Hid. now apply (List.in_map task_id).
  - now apply IH.
Qed.

Lemma find_updated_row (rs : list Task) id row' :
  In id (map task_id rs) -> task_id row' = id ->
  List.find (fun row => task_id row =? id)
    (map (fun row => if task_id row =? id then row' else row) rs) = Some row'.
Proof.
  intros Hin Hid. induction rs as [|row rest IH]; [destruct Hin|].
  cbn [map List.find]. destruct (Z.eqb_spec (task_id row) id) as [E|Hne].
  - rewrite Hid. now rewrite Z.eqb_refl.
  - destruct (Z.eqb_spec (task_id row) id) as [|_]; [contradiction|].
    apply IH. destruct Hin as [E|Hin]; [contradiction | exact Hin].
Qed.

Lemma set_completed_same task : set_completed (completed task) task = task.
Proof. now destruct task. Qed.

(** X7. Ticking 'Complete' on an incomplete row of a store with unique keys
    sets the flag of that row to 1 and changes nothing else in it and no
    other row; unticking it again gives back the store as it was; a checkbox
    that agrees with the flag writes nothing and asks for no rerun. *)
Theorem checkbox_toggle_round_trip task db :
  List.NoDup (ids db) ->
  In task (get_tasks db) ->
  completed task = 0 ->
  find_task (task_id task) (fst (on_checkbox true task db)) = Some (set_completed 1 task)
  /\ (forall id', id' <> task_id task ->
        find_task id' (fst (on_checkbox true task db)) = find_task id' db)
  /\ fst (on_checkbox false (set_completed 1 task) (fst (on_checkbox true task db))) = db
  /\ on_checkbox false task db = (db, [])
  /\ on_checkbox true (set_completed 1 task) (fst (on_checkbox true task db))
     = (fst (on_checkbox true task db), []).
Proof.
  intros Hnodup Hin Hc. unfold on_checkbox, truthy. rewrite Hc.
  cbn [Z.eqb negb fst set_completed completed task_id name deadline notify_time
         assigned_by designation priority].
  split; [|split; [|split; [|split; reflexivity]]].
  - unfold find_task, update_task, get_tasks in *. cbn [rows].
    apply find_updated_row; [now apply (List.in_map task_id) | reflexivity].
  - intros id' Hne. now apply find_task_update_other.
  - unfold update_task. destruct db as [rs s]. cbn [rows seq]. f_equal.
    unfold ids, get_tasks in *. cbn [rows] in *.
    rewrite map_map. rewrite <- (map_id rs) at 2. apply map_ext_in.
    intros row Hrow. destruct (Z.eqb_spec (task_id row) (task_id task)) as [E|Hne].
    + cbn [task_id]. rewrite Z.eqb_refl.
      rewrite (unique_row rs task row Hnodup Hin Hrow E).
      clear -Hc. destruct task. cbn in Hc |- *. now subst.
    + destruct (Z.eqb_spec (task_id row) (task_id task)) as [|_]; [contradiction|reflexivity].
Qed.

Lemma update_own_row before task after flag :
  List.NoDup (map task_id (before ++ task :: after)) ->
  map (fun row =>
         if task_id row =? task_id task
         then mkTask (task_id task) (name task) (deadline task) (notify_time task)
                (assigned_by task) (designation task) (priority task) flag
         else row) (before ++ task :: after)
  = before ++ set_completed flag task :: after.
Proof.
  intros Hnodup. rewrite map_app in Hnodup. cbn [map] in Hnodup.
  apply List.NoDup_remove_2 in Hnodup.
  assert (Hother : forall rs, (forall row, In row rs -> task_id row <> task_id task) ->
            map (fun row =>
                   if task_id row =? task_id task
                   then mkTask (task_id task) (name task) (deadline task) (notify_time task)
                          (assigned_by task) (designation task) (priority task) flag
                   else row) rs = rs).
  { intros rs Hrs. rewrite <- (map_id rs) at 2. apply map_ext_in. intros row Hrow.
    destruct (Z.eqb_spec (task_id row) (task_id task)) as [E|_]; [|reflexivity].
    now apply Hrs in Hrow. }
  rewrite map_app. cbn [map]. rewrite Z.eqb_refl. f_equal; [|f_equal].
  - apply Hother. intros row Hrow E. apply Hnodup. apply List.in_or_app. left.
    rewrite <- E. now apply (List.in_map task_id).
  - apply Hother. intros row Hrow E. apply Hnodup. apply List.in_or_app. right.
    rewrite <- E. now apply (List.in_map task_id).
Qed.

(** X8. Once 'Complete' is ticked on an incomplete row, the evaluator says
    nothing about it: a pass over the store after the tick is the pass over
    the store before it without that row, for every parser, sink and clock. *)
Theorem ticked_task_is_silent strptime sink_raises now before task after db tr :
  get_tasks db = before ++ task :: after ->
  List.NoDup (ids db) ->
  completed task = 0 ->
  get_tasks (fst (on_checkbox true task db)) = before ++ set_completed 1 task :: after
  /\ run (check_deadlines strptime sink_raises now (get_tasks (fst (on_checkbox true task db)))) tr
     = run (check_deadlines strptime sink_raises now (before ++ after)) tr.
Proof.
  intros Hrows Hnodup Hc.
  assert (Hafter : get_tasks (fst (on_checkbox true task db))
                   = before ++ set_completed 1 task :: after).
  { unfold on_checkbox, truthy. rewrite Hc. cbn [Z.eqb negb fst].
    unfold get_tasks, update_task, ids in *. cbn [rows]. rewrite Hrows in *.
    now apply update_own_row. }
  split; [exact Hafter|]. rewrite Hafter, !run_check_deadlines_app.
  destruct (run (check_deadlines strptime sink_raises now before) tr) as [tr1 [[]|e]];
    [|reflexivity].
  rewrite run_check_deadlines_cons. now rewrite run_check_task_completed.
Qed.

(** ** More on the filter selector *)

Lemma filter_sublist_mono {A} (f g : A -> bool) (l : list A) :
  (forall x, In x l -> f x = true -> g x = true) ->
  sublist (List.filter f l) (List.filter g l).
Proof.
  induction l as [|x l IH]; intros Hfg; [constructor|].
  cbn [List.filter].
  assert (IH' : sublist (List.filter f l) (List.filter g l)).
  { apply IH. intros y Hy. apply Hfg. now right. }
  destruct (f x) eqn:Ef.
  - rewrite (Hfg x (or_introl eq_refl) Ef). now constructor.
  - destruct (g x); [now constructor | exact IH'].
Qed.

Lemma filter_sublist_self {A} (f : A -> bool) (l : list A) : sublist (List.filter f l) l.
Proof.
  induction l as [|x l IH]; [constructor|].
  cbn [List.filter]. destruct (f x); now constructor.
Qed.

Lemma filter_twice {A} (f : A -> bool) (l : list A) :
  List.filter f (List.filter f l) = List.filter f l.
Proof.
  induction l as [|x l IH]; [reflexivity|].
  cbn [List.filter]. destruct (f x) eqn:E; [|exact IH].
  cbn [List.filter]. now rewrite E, IH.
Qed.

(** What the loop of the nearest-deadline view returns, it returns after
    reading the deadline of every incomplete task. *)
Lemma nearest_loop_returned strptime now tasks filtered l :
  nearest_loop strptime now tasks filtered = Returned l ->
  l = filtered ++ List.filter (nearest_deadline strptime now) tasks
  /\ Forall (fun task => completed task = 0 -> is_Some (strptime (deadline task))) tasks.
Proof.
  revert filtered. induction tasks as [|task rest IH]; intros filtered; cbn [nearest_loop].
  - intros [= <-]. now rewrite app_nil_r.
  - unfold nearest_deadline at 1, due_within_day, truthy, parse. cbn [List.filter].
    destruct (Z.eqb_spec (completed task) 0) as [Hc|Hc]; cbn [negb andb].
    + destruct (strptime (deadline task)) as [d|] eqn:Ed; [|discriminate].
      cbn [mbind outcome_bind].
      destruct (d - now <? timedelta_days 1); intros H; apply IH in H; destruct H as [-> Hall].
      * split; [now rewrite <- app_assoc | constructor; [eauto | exact Hall]].
      * split; [reflexivity | constructor; [eauto | exact Hall]].
    + intros H. apply IH in H. destruct H as [-> Hall].
      split; [reflexivity | constructor; [intros; contradiction | exact Hall]].
Qed.

(** What it raises is the error of the first incomplete task whose deadline
    does not parse. *)
Lemma nearest_loop_raised strptime now tasks filtered e :
  nearest_loop strptime now tasks filtered = Raised e ->
  exists before task after,
    tasks = before ++ task :: after
    /\ Forall (fun row => completed row = 0 -> is_Some (strptime (deadline row))) before
    /\ completed task = 0
    /\ strptime (deadline task) = None
    /\ e = ValueError (deadline task).
Proof.
  revert filtered. induction tasks as [|task rest IH]; intros filtered; cbn [nearest_loop];
    [discriminate|].
  unfold truthy, parse.
  destruct (Z.eqb_spec (completed task) 0) as [Hc|Hc]; cbn [negb].
  - destruct (strptime (deadline task)) as [d|] eqn:Ed.
    + cbn [mbind outcome_bind].
      destruct (d - now <? timedelta_days 1); intros H; apply IH in H;
        destruct H as (before & bad & after & -> & Hall & Hbad);
        exists (task :: before), bad, after;
        (split; [reflexivity | split; [constructor; [eauto | exact Hall] | exact Hbad]]).
    + cbn [mbind outcome_bind]. intros [= <-].
      exists [], task, rest. repeat split; auto.
  - intros H. apply IH in H. destruct H as (before & bad & after & -> & Hall & Hbad).
    exists (task :: before), bad, after.
    split; [reflexivity | split; [constructor; [intros; contradiction | exact Hall] | exact Hbad]].
Qed.

Lemma nearest_loop_total strptime now tasks filtered :
  Forall (fun task => completed task = 0 -> is_Some (strptime (deadline task))) tasks ->
  nearest_loop strptime now tasks filtered
  = Returned (filtered ++ List.filter (nearest_deadline strptime now) tasks).
Proof.
  intros Hall. destruct (nearest_loop strptime now tasks filtered) as [l|e] eqn:E.
  - apply nearest_loop_returned in E. now destruct E as [-> _].
  - exfalso. apply nearest_loop_raised in E.
    destruct E as (before & bad & after & -> & _ & Hc & Hnone & _).
    rewrite List.Forall_forall in Hall.
    destruct (Hall bad) as [d Hd]; [apply List.in_or_app; right; now left | exact Hc |].
    congruence.
Qed.

(** Every view, when it returns, returns the tasks of the input that pass a
    test, and the same test on its own output keeps all of them. *)
Lemma filter_tasks_returned strptime now tasks filter_option l :
  filter_tasks strptime now tasks filter_option = Returned l ->
  exists test : Task -> bool,
    l = List.filter test tasks
    /\ filter_tasks strptime now l filter_option = Returned l.
Proof.
  unfold filter_tasks.
  destruct (String.eqb filter_option "View Completed Tasks").
  - intros [= <-]. exists (fun task => completed task =? 1).
    split; [reflexivity | now rewrite filter_twice].
  - destruct (String.eqb filter_option "View Nearest Deadline Tasks (within 1 day)").
    + intros H. apply nearest_loop_returned in H. cbn [app] in H. destruct H as [-> Hall].
      exists (nearest_deadline strptime now). split; [reflexivity|].
      rewrite nearest_loop_total.
      * cbn [app]. now rewrite filter_twice.
      * rewrite List.Forall_forall in *. intros task Hin. apply List.filter_In in Hin.
        now apply Hall.
    + intros [= <-]. exists (fun _ => true). split; [|reflexivity].
      clear. induction tasks as [|t ts IH]; [reflexivity|]. cbn [List.filter]. now f_equal.
Qed.

(** X9. A view shown twice is the view shown once: whenever a view returns a
    list, the same view of that list, at the same clock, returns it again. *)
Theorem filter_tasks_idempotent strptime now tasks filter_option l :
  filter_tasks strptime now tasks filter_option = Returned l ->
  filter_tasks strptime now l filter_option = Returned l.
Proof.
  intros H. apply filter_tasks_returned in H. now destruct H as (_ & _ & H).
Qed.

(** X10. A view never invents, repeats or reorders tasks: whatever it
    returns is the input with some tasks left out. *)
Theorem filter_tasks_sublist strptime now tasks filter_option l :
  filter_tasks strptime now tasks filter_option = Returned l ->
  sublist l tasks /\ (forall task, In task l -> In task tasks) /\ (length l <= length tasks)%nat.
Proof.
  intros H. apply filter_tasks_returned in H. destruct H as (test & -> & _).
  split; [apply filter_sublist_self|]. split.
  - intros task Hin. now apply List.filter_In in Hin.
  - apply List.filter_length_le.
Qed.

(** X11. The nearest-deadline view returns exactly when every incomplete
    task has a readable deadline; otherwise it raises the [ValueError] of the
    first incomplete task, in store order, whose deadline does not parse.
    The deadlines of completed tasks are never read, and nothing else makes
    the view fail. *)
Theorem nearest_view_fails_on_unreadable_deadline strptime now tasks :
  ((exists l, filter_tasks strptime now tasks "View Nearest Deadline Tasks (within 1 day)"
              = Returned l)
   <-> Forall (fun task => completed task = 0 -> is_Some (strptime (deadline task))) tasks)
  /\ (forall e,
        filter_tasks strptime now tasks "View Nearest Deadline Tasks (within 1 day)" = Raised e ->
        exists before task after,
          tasks = before ++ task :: after
          /\ Forall (fun row => completed row = 0 -> is_Some (strptime (deadline row))) before
          /\ completed task = 0
          /\ strptime (deadline task) = None
          /\ e = ValueError (deadline task)).
Proof.
  assert (Hview : filter_tasks strptime now tasks "View Nearest Deadline Tasks (within 1 day)"
                  = nearest_loop strptime now tasks []) by reflexivity.
  rewrite Hview. split; [split|].
  - intros [l Hl]. now apply nearest_loop_returned in Hl.
  - intros Hall. eexists. now apply nearest_loop_total.
  - intros e. apply nearest_loop_raised.
Qed.


(** X13. As the clock advances, tasks only enter the nearest-deadline view:
    what the view returns at [now] is, in order, part of what it returns at
    any later [now'] on the same tasks. *)
Theorem nearest_view_grows_with_time strptime now now' tasks l l' :
  now <= now' ->
  filter_tasks strptime now tasks "View Nearest Deadline Tasks (within 1 day)" = Returned l ->
  filter_tasks strptime now' tasks "View Nearest Deadline Tasks (within 1 day)" = Returned l' ->
  sublist l l'.
Proof.
  intros Hle Hl Hl'.
  assert (Hview : forall t, filter_tasks strptime t tasks "View Nearest Deadline Tasks (within 1 day)"
                            = nearest_loop strptime t tasks []) by reflexivity.
  rewrite Hview in Hl, Hl'.
  apply nearest_loop_returned in Hl. apply nearest_loop_returned in Hl'.
  destruct Hl as [-> _], Hl' as [-> _]. cbn [app].
  apply filter_sublist_mono. intros task _.
  unfold nearest_deadline, due_within_day.
  destruct (negb (truthy (completed task))); [|discriminate]. cbn [andb].
  destruct (strptime (deadline task)) as [d|]; [|discriminate].
  rewrite !Z.ltb_lt. lia.
Qed.

(** X14. A deleted task is on no view: after the delete button of a row, no
    view of the store returns a row under that key. *)
Theorem deleted_task_on_no_view strptime now task db filter_option l :
  filter_tasks strptime now (get_tasks (fst (on_delete_button true task db))) filter_option
  = Returned l ->
  Forall (fun row => task_id row <> task_id task) l.
Proof.
  intros H. apply filter_tasks_returned in H. destruct H as (test & -> & _).
  apply List.Forall_forall. intros row Hin. apply List.filter_In in Hin. destruct Hin as [Hin _].
  cbn [on_delete_button fst] in Hin. unfold get_tasks, delete_task in Hin. cbn [rows] in Hin.
  apply List.filter_In in Hin. destruct Hin as [_ Hne].
  intros E. rewrite E, Z.eqb_refl in Hne. discriminate.
Qed.

(** ** More on the evaluator *)

Section EvaluatorOnSnapshots.

Variable strptime : string -> option datetime.
Variable sink_raises : list Effect -> string -> string -> bool.

Lemma task_events_run now task tr :
  reliable sink_raises -> readable strptime task ->
  run (check_task strptime sink_raises now task) tr
  = (tr ++ task_events strptime now task, Returned ()).
Proof.
  intros Hsink Hread. unfold task_events.
  destruct (truthy (completed task)) eqn:Hc.
  - rewrite run_check_task_completed; [now rewrite app_nil_r|].
    unfold truthy in Hc. now destruct (Z.eqb_spec (completed task) 0).
  - assert (Hc0 : completed task = 0).
    { unfold truthy in Hc. now destruct (Z.eqb_spec (completed task) 0). }
    destruct (Hread Hc0) as [[d Hd] [n Hn]]. rewrite Hd, Hn.
    now apply run_check_task_incomplete.
Qed.

Lemma pass_events_run now tasks tr :
  reliable sink_raises -> Forall (readable strptime) tasks ->
  run (check_deadlines strptime sink_raises now tasks) tr
  = (tr ++ pass_events strptime now tasks, Returned ()).
Proof.
  intros Hsink Hall. revert tr. induction Hall as [|task rest Hread _ IH]; intros tr.
  - cbn. now rewrite app_nil_r.
  - rewrite run_check_deadlines_cons, task_events_run by assumption.
    rewrite IH. unfold pass_events. cbn [flat_map]. now rewrite <- app_assoc.
Qed.

(** X15. On a snapshot whose incomplete tasks have readable timestamps, and
    with a sink that delivers, a pass returns normally, having performed for
    each task in store order what the contract asks for it and nothing else. *)
Theorem pass_performs_contract now tasks tr :
  reliable sink_raises ->
  Forall (readable strptime) tasks ->
  run (check_deadlines strptime sink_raises now tasks) tr
  = (tr ++ pass_events strptime now tasks, Returned ()).
Proof.
  intros Hsink Hall. revert tr. unfold pass_events.
  induction Hall as [|task rest Hread _ IH]; intros tr; cbn [flat_map].
  - rewrite app_nil_r. reflexivity.
  - rewrite run_check_deadlines_cons.
    rewrite (task_events_run now task tr Hsink Hread).
    rewrite IH, <- app_assoc. reflexivity.
Qed.

Lemma overdue_call_in_pass_events now tasks task d :
  Forall (readable strptime) tasks ->
  In task tasks ->
  completed task = 0 ->
  strptime (deadline task) = Some d ->
  d < now ->
  In (Notify TITLE_OVERDUE (overdue_message (name task)) 10) (pass_events strptime now tasks).
Proof.
  intros Hall Hin Hc Hd Hlt. unfold pass_events. apply List.in_flat_map.
  exists task. split; [exact Hin|].
  rewrite List.Forall_forall in Hall. destruct (Hall task Hin Hc) as [_ [n Hn]].
  unfold task_events, truthy. rewrite Hc, Hd, Hn. cbn [Z.eqb negb].
  unfold contract_events, deadline_part. apply Z.ltb_lt in Hlt. rewrite Hlt.
  apply List.in_or_app. right. left. reflexivity.
Qed.

(** X16. Nothing is remembered between passes.  On a snapshot whose
    incomplete tasks have readable timestamps and with a sink that delivers,
    a pass that follows an earlier pass over the same store performs all
    that it would perform alone, after what the earlier one performed; so an
    incomplete task that is overdue at both clock readings has its overdue
    notification in the first pass and again in the second. *)
Theorem second_pass_repeats_reminders now now' tasks task d tr :
  reliable sink_raises ->
  Forall (readable strptime) tasks ->
  In task tasks ->
  completed task = 0 ->
  strptime (deadline task) = Some d ->
  d < now ->
  d < now' ->
  run (check_deadlines strptime sink_raises now' tasks)
    (fst (run (check_deadlines strptime sink_raises now tasks) tr))
  = (tr ++ pass_events strptime now tasks ++ pass_events strptime now' tasks, Returned ())
  /\ In (Notify TITLE_OVERDUE (overdue_message (name task)) 10)
        (pass_events strptime now tasks)
  /\ In (Notify TITLE_OVERDUE (overdue_message (name task)) 10)
        (pass_events strptime now' tasks).
Proof.
  intros Hsink Hall Hin Hc Hd Hlt Hlt'. split; [|split].
  - rewrite (pass_events_run now tasks tr Hsink Hall). cbn [fst].
    rewrite (pass_events_run now' tasks _ Hsink Hall). now rewrite <- app_assoc.
  - now apply (overdue_call_in_pass_events now tasks task d).
  - now apply (overdue_call_in_pass_events now' tasks task d).
Qed.

(** X17. A task that is not due costs nothing: for an incomplete task whose
    deadline is thirty minutes or more away (exactly thirty included) and
    whose notify time is not reached or is the sentinel or earlier, the
    evaluator calls nothing, so it returns with the trace as it was even with
    a sink that would raise on every call. *)
Theorem quiet_task_calls_nothing now task d n tr :
  completed task = 0 ->
  strptime (deadline task) = Some d ->
  strptime (notify_time task) = Some n ->
  timedelta_minutes 30 <= d - now ->
  now < n \/ n <= EPOCH ->
  run (check_task strptime sink_raises now task) tr = (tr, Returned ())
  /\ contract_events now n d (name task) = [].
Proof.
  intros Hc Hd Hn Hfar Hnot.
  assert (Hreached : (now >=? n) && (n >? EPOCH) = false).
  { rewrite Z.geb_leb, Z.gtb_ltb. apply andb_false_iff.
    destruct Hnot; [left; apply Z.leb_gt | right; apply Z.ltb_ge]; lia. }
  assert (Hlate : (d <? now) = false).
  { apply Z.ltb_ge. unfold timedelta_minutes, MICROS_PER_MINUTE in Hfar. lia. }
  assert (Hsoon : (d - now <? timedelta_minutes 30) = false) by (apply Z.ltb_ge; lia).
  split.
  - unfold check_task, truthy, parse. rewrite Hc, Hd, Hn. cbn [Z.eqb negb].
    rewrite !run_bind, !run_lift. cbv beta iota. rewrite !run_bind, !run_lift.
    cbv beta iota. rewrite Hreached, run_bind, run_ret. cbv beta iota.
    now rewrite Hlate, Hsoon.
  - unfold contract_events, notification_part, deadline_part, notify_time_reached.
    rewrite Z.geb_leb, Z.gtb_ltb in Hreached. now rewrite Hreached, Hlate, Hsoon.
Qed.

Ltac reminders_case :=
  split; [first [reflexivity | cbn; rewrite <- ?app_assoc; reflexivity]|];
  split; [cbn [length]; lia|];
  split; [intros; first [reflexivity | discriminate]|];
  let Hout := fresh "Hout" in
  intros ? Hout; first [discriminate Hout | injection Hout as <-; auto].

(** What one task adds to the trace, for any parser and any sink: whole
    reminders about that task, at most two, and none when it is completed. *)
Lemma check_task_adds_reminders now task tr :
  exists (kinds : list Reminder) out,
    run (check_task strptime sink_raises now task) tr
    = (tr ++ reminders_events (map (fun kind => (kind, task)) kinds), out)
    /\ (length kinds <= 2)%nat
    /\ (truthy (completed task) = true -> kinds = [])
    /\ (forall data, out = Raised (ValueError data) ->
          completed task = 0 /\ strptime data = None
          /\ (data = deadline task \/ data = notify_time task)).
Proof.
  unfold check_task, parse, st_info, st_warning.
  destruct (truthy (completed task)) eqn:Hc.
  { exists [], (Returned ()). rewrite run_ret, app_nil_r. reminders_case. }
  assert (Hc0 : completed task = 0).
  { unfold truthy in Hc. now destruct (Z.eqb_spec (completed task) 0). }
  rewrite run_bind, run_lift.
  destruct (strptime (deadline task)) as [d|] eqn:Hd.
  2:{ exists [], (Raised (ValueError (deadline task))). rewrite app_nil_r. reminders_case. }
  rewrite run_bind, run_lift.
  destruct (strptime (notify_time task)) as [n|] eqn:Hn.
  2:{ exists [], (Raised (ValueError (notify_time task))). rewrite app_nil_r. reminders_case. }
  rewrite run_bind.
  destruct ((now >=? n) && (n >? EPOCH));
    [rewrite run_reminder; destruct (sink_raises tr _ _) | rewrite run_ret];
    cbv beta iota;
    try (destruct (d <? now); [|destruct (d - now <? timedelta_minutes 30)];
         [rewrite run_reminder; destruct (sink_raises _ _ _)
         |rewrite run_reminder; destruct (sink_raises _ _ _)
         |rewrite run_ret]);
    first
      [ exists [], (Returned ()); rewrite app_nil_r; reminders_case
      | exists [], (Raised (NotifyError "Task Notification"
                              ("Task '" +:+ name task +:+ "' notification time reached!")));
        rewrite app_nil_r; reminders_case
      | exists [], (Raised (NotifyError "Task Overdue!"
                              ("Task '" +:+ name task +:+ "' is overdue!")));
        rewrite app_nil_r; reminders_case
      | exists [], (Raised (NotifyError "Task Deadline Approaching"
                              ("Task '" +:+ name task +:+ "' deadline is approaching!")));
        rewrite app_nil_r; reminders_case
      | exists [NotificationDue], (Returned ()); reminders_case
      | exists [NotificationDue],
          (Raised (NotifyError "Task Overdue!" ("Task '" +:+ name task +:+ "' is overdue!")));
        reminders_case
      | exists [NotificationDue],
          (Raised (NotifyError "Task Deadline Approaching"
                     ("Task '" +:+ name task +:+ "' deadline is approaching!")));
        reminders_case
      | exists [Overdue], (Returned ()); reminders_case
      | exists [Approaching], (Returned ()); reminders_case
      | exists [NotificationDue; Overdue], (Returned ()); reminders_case
      | exists [NotificationDue; Approaching], (Returned ()); reminders_case ].
Qed.

Lemma check_deadlines_adds_reminders now tasks tr :
  exists (reminders : list (Reminder * Task)) out,
    run (check_deadlines strptime sink_raises now tasks) tr
    = (tr ++ reminders_events reminders, out)
    /\ Forall (fun reminder => In (snd reminder) tasks /\ completed (snd reminder) = 0) reminders
    /\ (length reminders
        <= 2 * length (List.filter (fun task => negb (truthy (completed task))) tasks))%nat
    /\ (forall data, out = Raised (ValueError data) ->
          exists task, In task tasks /\ completed task = 0 /\ strptime data = None
            /\ (data = deadline task \/ data = notify_time task)).
Proof.
  revert tr. induction tasks as [|task rest IH]; intros tr.
  - exists [], (Returned ()). cbn. rewrite app_nil_r.
    repeat split; [constructor | lia | discriminate].
  - rewrite run_check_deadlines_cons.
    destruct (check_task_adds_reminders now task tr) as (kinds & out & -> & Hlen & Hdone & Hval).
    assert (Hmine : Forall (fun reminder => In (snd reminder) (task :: rest)
                                            /\ completed (snd reminder) = 0)
                      (map (fun kind => (kind, task)) kinds)).
    { apply List.Forall_forall. intros reminder Hin. apply List.in_map_iff in Hin.
      destruct Hin as (kind & <- & Hkind). cbn [snd]. split; [now left|].
      unfold truthy in Hdone. destruct (Z.eqb_spec (completed task) 0) as [E|_]; [exact E|].
      rewrite Hdone in Hkind by reflexivity. destruct Hkind. }
    assert (Hcount : (length kinds
                      <= 2 * length (List.filter (fun t => negb (truthy (completed t))) [task]))%nat).
    { cbn [List.filter]. destruct (truthy (completed task)); cbn [negb length].
      - rewrite Hdone by reflexivity. cbn. lia.
      - lia. }
    destruct out as [[]|e].
    + destruct (IH (tr ++ reminders_events (map (fun kind => (kind, task)) kinds)))
        as (reminders & out & -> & Hall & Hbound & Hval').
      exists (map (fun kind => (kind, task)) kinds ++ reminders), out.
      split; [unfold reminders_events; now rewrite List.flat_map_app, <- app_assoc|].
      split; [|split].
      * apply List.Forall_app. split; [exact Hmine|].
        eapply List.Forall_impl; [|exact Hall]. cbn. intros r [Hr Hc]. split; [now right | exact Hc].
      * rewrite length_app, length_map.
        change (task :: rest) with ([task] ++ rest). rewrite List.filter_app, length_app. lia.
      * intros data Hdata. destruct (Hval' data Hdata) as (bad & Hin & Hbad).
        exists bad. split; [now right | exact Hbad].
    + exists (map (fun kind => (kind, task)) kinds), (Raised e).
      split; [reflexivity|]. split; [exact Hmine|]. split.
      * rewrite length_map. change (task :: rest) with ([task] ++ rest).
        rewrite List.filter_app, length_app. lia.
      * intros data Hdata. exists task. split; [now left | now apply Hval].
Qed.

(** X18. Whatever the timestamps hold and whatever the sink does, a pass
    only adds to what was performed before it, and what it adds are whole
    reminders, a notification followed by the page line with the same
    message, each about an incomplete task of the snapshot and at most two
    for each such task: it shows no error or success line and asks for no
    rerun. *)
Theorem pass_adds_whole_reminders now tasks tr tr' out :
  run (check_deadlines strptime sink_raises now tasks) tr = (tr', out) ->
  exists reminders : list (Reminder * Task),
    tr' = tr ++ reminders_events reminders
    /\ Forall (fun reminder => In (snd reminder) tasks /\ completed (snd reminder) = 0) reminders
    /\ (length reminders
        <= 2 * length (List.filter (fun task => negb (truthy (completed task))) tasks))%nat.
Proof.
  intros Hrun.
  destruct (check_deadlines_adds_reminders now tasks tr) as (reminders & out' & H & Hall & Hlen & _).
  rewrite Hrun in H. injection H as -> _. now exists reminders.
Qed.

End EvaluatorOnSnapshots.

(** ** More on the periodic trigger *)

Lemma init_scheduler_step sid p :
  (exists n, (n <= 1)%nat
     /\ schedulers (init_scheduler sid p) = schedulers p ++ replicate n started_scheduler)
  /\ (forall sid' key, key <> "scheduler_started" ->
        session_state sid' (init_scheduler sid p) !! key = session_state sid' p !! key)
  /\ (forall sid', session_state sid' p !! "scheduler_started" <> None ->
        session_state sid' (init_scheduler sid p) !! "scheduler_started" <> None)
  /\ session_state sid (init_scheduler sid p) !! "scheduler_started" <> None.
Proof.
  unfold init_scheduler. case_bool_decide as Hflag.
  - split; [exists 1%nat; split; [lia | reflexivity]|].
    assert (Hstate : forall sid', session_state sid'
                (mkProcess (schedulers p ++ [mkScheduler [mkJob CheckDeadlines 1] true])
                   (<[sid := <["scheduler_started" := true]> (session_state sid p)]>
                      (session_states p)))
              = if decide (sid = sid') then <["scheduler_started" := true]> (session_state sid p)
                else session_state sid' p).
    { intros sid'. unfold session_state at 1. cbn [session_states].
      destruct (decide (sid = sid')) as [<-|Hne].
      - now rewrite lookup_insert_eq.
      - now rewrite lookup_insert_ne. }
    split; [|split].
    + intros sid' key Hkey. rewrite Hstate. destruct (decide (sid = sid')) as [<-|_]; [|reflexivity].
      now rewrite lookup_insert_ne.
    + intros sid' Hset. rewrite Hstate. destruct (decide (sid = sid')) as [<-|_]; [|exact Hset].
      now rewrite lookup_insert_eq.
    + rewrite Hstate. destruct (decide (sid = sid)) as [_|]; [|contradiction].
      now rewrite lookup_insert_eq.
  - split; [exists 0%nat; split; [lia | cbn; now rewrite app_nil_r]|]. auto.
Qed.

(** X20. [init_scheduler] only ever adds: whichever sessions run it, from
    whatever state of the process, the schedulers there were are still there,
    unchanged and in place, followed by at most one new scheduler for each
    run, every one of them running the one-minute deadline check and nothing
    else; no other key of any session's state is touched, no flag that was
    set is cleared, and every session that ran it has its flag set. *)
Theorem init_scheduler_only_adds sids p :
  (exists n, (n <= length sids)%nat
     /\ schedulers (init_all sids p) = schedulers p ++ replicate n started_scheduler)
  /\ (forall sid key, key <> "scheduler_started" ->
        session_state sid (init_all sids p) !! key = session_state sid p !! key)
  /\ (forall sid, session_state sid p !! "scheduler_started" <> None ->
        session_state sid (init_all sids p) !! "scheduler_started" <> None)
  /\ (forall sid, In sid sids ->
        session_state sid (init_all sids p) !! "scheduler_started" <> None).
Proof.
  revert p. induction sids as [|sid sids IH]; intros p.
  - split; [exists 0%nat; split; [cbn; lia | cbn; now rewrite app_nil_r]|].
    split; [reflexivity|]. split; [auto | intros sid []].
  - cbn [init_all foldl]. fold (init_all sids (init_scheduler sid p)).
    destruct (IH (init_scheduler sid p)) as ((n & Hn & Hsched) & Hkeys & Hflags & Hran).
    destruct (init_scheduler_step sid p) as ((m & Hm & Hstep) & Hkeys1 & Hflags1 & Hset1).
    split; [|split; [|split]].
    + exists (m + n)%nat. split; [cbn [length]; lia|].
      rewrite Hsched, Hstep, <- app_assoc. f_equal. symmetry. apply replicate_add.
    + intros sid' key Hkey. rewrite Hkeys by exact Hkey. now apply Hkeys1.
    + intros sid' Hset. apply Hflags. now apply Hflags1.
    + intros sid' [<-|Hin]; [now apply Hflags | now apply Hran].
Qed.

(** ** More on the form *)

Section SubmissionAndEvaluation.

Variable strftime : datetime -> string.

(** X21. The form creates a task exactly when it is valid: the three texts
    not empty and neither time before [now] (a time equal to [now] passes).
    Then the store gains one row at the end, incomplete, holding the texts
    of the form and the two times as formatted, and the page shows the
    success line and reruns. *)
Theorem submission_accepted_iff_valid now form db :
  (valid_form now form ->
   on_submit strftime now form db
   = (add_task (form_name form)
        (strftime (combine (deadline_date form) (deadline_time form)))
        (strftime (combine (notify_date form) (notify_time_val form)))
        (form_assigned_by form) (form_designation form) (form_priority form) db,
      [StSuccess "Task added successfully!"; StRerun]))
  /\ (length (get_tasks (fst (on_submit strftime now form db))) = S (length (get_tasks db))
      <-> valid_form now form)
  /\ (fst (on_submit strftime now form db) <> db <-> valid_form now form).
Proof.
  assert (Hvalid : valid_form now form ->
            on_submit strftime now form db
            = (add_task (form_name form)
                 (strftime (combine (deadline_date form) (deadline_time form)))
                 (strftime (combine (notify_date form) (notify_time_val form)))
                 (form_assigned_by form) (form_designation form) (form_priority form) db,
               [StSuccess "Task added successfully!"; StRerun])).
  { intros (Hn & Ha & Hd & Hdl & Hnt). unfold on_submit.
    apply String.eqb_neq in Hn. apply String.eqb_neq in Ha. apply String.eqb_neq in Hd.
    rewrite Hn, Ha, Hd. apply Z.ltb_ge in Hdl. apply Z.ltb_ge in Hnt. now rewrite Hdl, Hnt. }
  assert (Hinvalid : ~ valid_form now form -> fst (on_submit strftime now form db) = db).
  { intros Hbad. unfold on_submit, valid_form in *.
    destruct (String.eqb_spec (form_name form) "") as [|Hn]; [reflexivity|].
    destruct (String.eqb_spec (form_assigned_by form) "") as [|Ha]; [reflexivity|].
    destruct (String.eqb_spec (form_designation form) "") as [|Hd]; [reflexivity|].
    destruct (Z.ltb_spec (combine (deadline_date form) (deadline_time form)) now);
      [reflexivity|].
    destruct (Z.ltb_spec (combine (notify_date form) (notify_time_val form)) now);
      [reflexivity|].
    exfalso. apply Hbad. auto. }
  assert (Hdec : valid_form now form \/ ~ valid_form now form).
  { unfold valid_form.
    destruct (String.eqb_spec (form_name form) ""); [right; tauto|].
    destruct (String.eqb_spec (form_assigned_by form) ""); [right; tauto|].
    destruct (String.eqb_spec (form_designation form) ""); [right; tauto|].
    destruct (Z.le_gt_cases now (combine (deadline_date form) (deadline_time form)));
      [|right; intros (_ & _ & _ & ? & _); lia].
    destruct (Z.le_gt_cases now (combine (notify_date form) (notify_time_val form)));
      [|right; intros (_ & _ & _ & _ & ?); lia].
    left. auto. }
  assert (Hgrow : valid_form now form ->
            length (get_tasks (fst (on_submit strftime now form db))) = S (length (get_tasks db))).
  { intros Hv. rewrite (Hvalid Hv). cbn [fst]. unfold get_tasks, add_task. cbn [rows].
    rewrite length_app. cbn [length]. lia. }
  split; [exact Hvalid|]. split; split.
  - intros Hlen. destruct Hdec as [Hv|Hbad]; [exact Hv|].
    rewrite (Hinvalid Hbad) in Hlen. lia.
  - exact Hgrow.
  - intros Hne. destruct Hdec as [Hv|Hbad]; [exact Hv|]. now apply Hinvalid in Hbad.
  - intros Hv Heq. apply Hgrow in Hv. rewrite Heq in Hv. lia.
Qed.

(** X22. What the form accepts is not born overdue: if the parser reads
    back the two times as the formatter wrote them, the task created by a
    valid submission at [now], evaluated at the same [now] with a sink that
    delivers, gets what the contract asks for its two times and no overdue
    reminder. *)
Theorem accepted_task_not_overdue strptime sink_raises now form db tr :
  valid_form now form ->
  strptime (strftime (combine (deadline_date form) (deadline_time form)))
  = Some (combine (deadline_date form) (deadline_time form)) ->
  strptime (strftime (combine (notify_date form) (notify_time_val form)))
  = Some (combine (notify_date form) (notify_time_val form)) ->
  reliable sink_raises ->
  exists task,
    get_tasks (fst (on_submit strftime now form db)) = get_tasks db ++ [task]
    /\ run (check_task strptime sink_raises now task) tr
       = (tr ++ contract_events now (combine (notify_date form) (notify_time_val form))
                  (combine (deadline_date form) (deadline_time form)) (form_name form),
          Returned ())
    /\ count_events TITLE_OVERDUE
         (contract_events now (combine (notify_date form) (notify_time_val form))
            (combine (deadline_date form) (deadline_time form)) (form_name form)) = 0%nat.
Proof.
  intros Hv Hdl Hnt Hsink. pose proof Hv as (Hn & Ha & Hd & Hdle & Hnle).
  unfold on_submit.
  apply String.eqb_neq in Hn. apply String.eqb_neq in Ha. apply String.eqb_neq in Hd.
  rewrite Hn, Ha, Hd.
  assert (Hlate : (combine (deadline_date form) (deadline_time form) <? now) = false)
    by now apply Z.ltb_ge.
  assert (Hlate' : (combine (notify_date form) (notify_time_val form) <? now) = false)
    by now apply Z.ltb_ge.
  rewrite Hlate, Hlate'. cbn [orb fst].
  eexists. split; [reflexivity|]. split.
  - now apply run_check_task_incomplete.
  - unfold contract_events, deadline_part. rewrite Hlate.
    rewrite count_events_app, count_notification_part.
    replace (String.eqb TITLE_NOTIFICATION TITLE_OVERDUE) with false by reflexivity.
    rewrite andb_false_r.
    destruct (_ <? timedelta_minutes 30); [now rewrite count_approaching_event | reflexivity].
Qed.

End SubmissionAndEvaluation.

(** ** [init_db] *)

Example init_db_fresh :
  Schema.init_db None = Some (Schema.mkTable Schema.TASKS_COLUMNS []).
Proof. reflexivity. Qed.

Example init_db_legacy :
  Schema.init_db (Some legacy_table)
  = Some (Schema.mkTable
            ["id"; "name"; "deadline"; "completed"; "notify_time"; "assigned_by";
             "designation"; "priority"]
            [[Schema.VInt 1; Schema.VText "report"; Schema.VText "2024-05-01 11:59";
              Schema.VInt 0; Schema.VText "1970-01-01 00:00"; Schema.VText "";
              Schema.VText ""; Schema.VText "Medium"];
             [Schema.VInt 2; Schema.VText "call"; Schema.VText "2024-05-01 12:10";
              Schema.VInt 1; Schema.VText "1970-01-01 00:00"; Schema.VText "";
              Schema.VText ""; Schema.VText "Medium"]]).
Proof. reflexivity. Qed.

Example init_db_capital : Schema.init_db (Some capital_table) = None.
Proof. reflexivity. Qed.

Example get_tasks_legacy :
  Schema.init_db (Some legacy_table) ≫= Schema.get_tasks
  = Some [mkTask 1 "report" "2024-05-01 11:59" "1970-01-01 00:00" "" "" "Medium" 0;
          mkTask 2 "call" "2024-05-01 12:10" "1970-01-01 00:00" "" "" "Medium" 1].
Proof. reflexivity. Qed.

Lemma migrate_some c v names t t' :
  Schema.migrate c v names t = Some t' ->
  Schema.columns t' = Schema.columns t ++ (if Schema.listed c names then [] else [c])
  /\ Schema.records t'
     = map (fun r => r ++ (if Schema.listed c names then [] else [v])) (Schema.records t).
Proof.
  unfold Schema.migrate, Schema.add_column.
  destruct (Schema.listed c names); cbn [negb].
  - intros [= <-]. rewrite app_nil_r. split; [reflexivity|].
    rewrite <- (map_id (Schema.records t)) at 1. apply map_ext. intros r. now rewrite app_nil_r.
  - destruct (Schema.has_column c t); [discriminate|]. now intros [= <-].
Qed.

Lemma init_db_some t t' :
  Schema.init_db (Some t) = Some t' ->
  Schema.columns t' = Schema.columns t ++ map fst (Schema.missing (Schema.columns t))
  /\ Schema.records t'
     = map (fun r => r ++ map snd (Schema.missing (Schema.columns t))) (Schema.records t).
Proof.
  unfold Schema.init_db. cbn [Schema.create_table_if_not_exists].
  intros H.
  apply bind_Some in H as (t1 & H1 & H). apply bind_Some in H as (t2 & H2 & H).
  apply bind_Some in H as (t3 & H3 & H). apply bind_Some in H as (t4 & H4 & H).
  injection H as <-.
  apply migrate_some in H1 as [C1 R1]. apply migrate_some in H2 as [C2 R2].
  apply migrate_some in H3 as [C3 R3]. apply migrate_some in H4 as [C4 R4].
  rewrite C4, C3, C2, C1, R4, R3, R2, R1, !map_map.
  unfold Schema.missing, Schema.MIGRATED. cbn [List.filter fst].
  split.
  - destruct (Schema.listed "notify_time" _), (Schema.listed "assigned_by" _),
      (Schema.listed "designation" _), (Schema.listed "priority" _);
      cbn [negb map fst]; rewrite <- ?app_assoc, ?app_nil_r; reflexivity.
  - apply map_ext. intros r.
    destruct (Schema.listed "notify_time" _), (Schema.listed "assigned_by" _),
      (Schema.listed "designation" _), (Schema.listed "priority" _);
      cbn [negb map snd]; rewrite <- ?app_assoc, ?app_nil_r; reflexivity.
Qed.

Lemma listed_app c names more :
  Schema.listed c (names ++ more) = Schema.listed c names || Schema.listed c more.
Proof. apply existsb_app. Qed.

Lemma has_column_columns c cols rs more rs' :
  Schema.has_column c (Schema.mkTable (cols ++ more) rs')
  = Schema.has_column c (Schema.mkTable cols rs) || existsb (Schema.same_column c) more.
Proof. unfold Schema.has_column. cbn [Schema.columns]. apply existsb_app. Qed.

(** X23. Where [init_db] succeeds on a table that is there, it keeps every
    column in place and every cell of every record as it was, appends those
    of the four migrated columns that the table lacks, in the order of the
    source, and makes every record read the column's default there.  The
    columns [id], [name], [deadline] and [completed] are not among them: a
    table without one of these is still without it. *)
Theorem init_db_adds_missing_columns t t' :
  Schema.init_db (Some t) = Some t' ->
  Schema.columns t' = Schema.columns t ++ map fst (Schema.missing (Schema.columns t))
  /\ Schema.records t'
     = map (fun r => r ++ map snd (Schema.missing (Schema.columns t))) (Schema.records t)
  /\ length (Schema.records t') = length (Schema.records t)
  /\ (forall c, In c ["id"; "name"; "deadline"; "completed"] ->
        Schema.has_column c t' = Schema.has_column c t).
Proof.
  intros H. apply init_db_some in H as [Hc Hr].
  split; [exact Hc|]. split; [exact Hr|]. split; [rewrite Hr; apply length_map|].
  intros c Hin. destruct t' as [cols' rs']. cbn [Schema.columns] in Hc. subst cols'.
  rewrite (has_column_columns c (Schema.columns t) (Schema.records t)).
  assert (Hnone : existsb (Schema.same_column c)
                    (map fst (Schema.missing (Schema.columns t))) = false).
  { unfold Schema.missing, Schema.MIGRATED. cbn [List.filter fst].
    destruct (Schema.listed "notify_time" _), (Schema.listed "assigned_by" _),
      (Schema.listed "designation" _), (Schema.listed "priority" _);
      cbn [negb map fst];
      destruct Hin as [<-|[<-|[<-|[<-|[]]]]]; reflexivity. }
  rewrite Hnone, orb_false_r. now destruct t.
Qed.

(** X24. [init_db] run again changes nothing: on the table that a
    successful run leaves, and so at every later start of the script, it
    succeeds and returns the table as it is. *)
Theorem init_db_idempotent db t :
  Schema.init_db db = Some t ->
  Schema.init_db (Some t) = Some t.
Proof.
  intros H.
  assert (Hlisted : forall c, In c ["notify_time"; "assigned_by"; "designation"; "priority"] ->
            Schema.listed c (Schema.columns t) = true).
  { destruct db as [t0|].
    - apply init_db_some in H as [Hc _]. rewrite Hc. intros c Hin. rewrite listed_app.
      destruct (Schema.listed c (Schema.columns t0)) eqn:E; [reflexivity|]. cbn [orb].
      unfold Schema.missing, Schema.MIGRATED. cbn [List.filter fst].
      destruct Hin as [<-|[<-|[<-|[<-|[]]]]]; rewrite E; cbn [negb map fst];
        repeat match goal with
               | |- context [negb (Schema.listed ?c ?names)] =>
                   destruct (Schema.listed c names); cbn [negb map fst]
               end; reflexivity.
    - injection H as <-. intros c [<-|[<-|[<-|[<-|[]]]]]; reflexivity. }
  unfold Schema.init_db, Schema.migrate. cbn [Schema.create_table_if_not_exists].
  rewrite !Hlisted by (cbn; tauto). reflexivity.
Qed.

Lemma listed_has_column c t :
  Schema.listed c (Schema.columns t) = true -> Schema.has_column c t = true.
Proof.
  unfold Schema.listed, Schema.has_column. rewrite !existsb_exists.
  intros (n & Hin & E). apply String.eqb_eq in E. subst n.
  exists c. split; [exact Hin|]. unfold Schema.same_column. apply String.eqb_refl.
Qed.

Lemma init_db_migrate_all db :
  Schema.init_db db
  = Schema.migrate_all Schema.MIGRATED
      (Schema.columns (Schema.create_table_if_not_exists db))
      (Schema.create_table_if_not_exists db).
Proof.
  unfold Schema.init_db, Schema.MIGRATED. cbn [Schema.migrate_all].
  destruct (Schema.migrate "notify_time" _ _ _) as [t1|]; [|reflexivity]. cbn [mbind option_bind].
  destruct (Schema.migrate "assigned_by" _ _ _) as [t2|]; [|reflexivity]. cbn [mbind option_bind].
  destruct (Schema.migrate "designation" _ _ _) as [t3|]; [|reflexivity]. cbn [mbind option_bind].
  now destruct (Schema.migrate "priority" _ _ _).
Qed.

Lemma migrate_all_none ms names t :
  Schema.distinct_columns ms = true ->
  (Schema.migrate_all ms names t = None
   <-> exists c, In c (map fst (List.filter (fun cv => negb (Schema.listed (fst cv) names)) ms))
                 /\ Schema.has_column c t = true).
Proof.
  revert t. induction ms as [|[c v] ms IH]; intros t Hdistinct.
  - cbn. split; [discriminate | intros (c & [] & _)].
  - cbn [Schema.distinct_columns] in Hdistinct. apply andb_true_iff in Hdistinct.
    destruct Hdistinct as [Hc Hdistinct]. rewrite forallb_forall in Hc.
    cbn [Schema.migrate_all List.filter fst]. unfold Schema.migrate, Schema.add_column.
    destruct (Schema.listed c names); cbn [negb mbind option_bind].
    + now apply IH.
    + destruct (Schema.has_column c t) eqn:Ec; cbn [mbind option_bind map fst].
      * split; [intros _; exists c; split; [now left | exact Ec] | reflexivity].
      * rewrite IH by exact Hdistinct. split.
        -- intros (c' & Hin & Hhas). exists c'. split; [now right|].
           unfold Schema.has_column in Hhas |- *. cbn [Schema.columns] in Hhas.
           rewrite existsb_app in Hhas. cbn [existsb] in Hhas. rewrite orb_false_r in Hhas.
           apply orb_true_iff in Hhas. destruct Hhas as [Hhas|Hsame]; [exact Hhas|].
           apply List.in_map_iff in Hin. destruct Hin as ([c0 v0] & <- & Hin0).
           apply List.filter_In in Hin0. destruct Hin0 as [Hin0 _].
           specialize (Hc _ Hin0). cbn [fst] in Hc, Hsame. rewrite Hsame in Hc. discriminate.
        -- intros (c' & [<-|Hin] & Hhas); [congruence|].
           exists c'. split; [exact Hin|].
           unfold Schema.has_column in Hhas |- *. cbn [Schema.columns].
           rewrite existsb_app, Hhas. reflexivity.
Qed.

(** X25. [init_db] fails exactly on a table that has one of the four
    migrated columns under a name that differs from the source's only in the
    case of its letters: Python does not find the name, and SQLite refuses to
    add the column as a duplicate.  On every other table, and on a file
    without the table, it succeeds. *)
Theorem init_db_fails_on_case_variant t :
  (Schema.init_db (Some t) = None
   <-> exists c, In c (map fst (Schema.missing (Schema.columns t)))
                 /\ Schema.has_column c t = true)
  /\ Schema.init_db None <> None.
Proof.
  split; [|discriminate].
  rewrite init_db_migrate_all. cbn [Schema.create_table_if_not_exists].
  now apply migrate_all_none.
Qed.

Lemma column_index_app_miss c cols more :
  existsb (Schema.same_column c) cols = false ->
  Schema.column_index c (cols ++ more)
  = (fun i => (length cols + i)%nat) <$> Schema.column_index c more.
Proof.
  induction cols as [|n cols IH]; cbn [existsb app Schema.column_index length].
  - intros _. now destruct (Schema.column_index c more).
  - intros H. apply orb_false_iff in H. destruct H as [-> H]. rewrite (IH H).
    now destruct (Schema.column_index c more).
Qed.

(** X26. Tasks that come from a table without a notify column are never
    reminded of at a notify time: after [init_db] their notify time reads as
    the sentinel, so, with a parser that reads the sentinel as 1970-01-01
    00:00 and a sink that delivers, the evaluator performs for each of them,
    when incomplete, the deadline reminder alone, at every clock reading. *)
Theorem migrated_tasks_never_notified strptime sink_raises now t t' tasks :
  Schema.rectangular t ->
  Schema.has_column "notify_time" t = false ->
  Schema.init_db (Some t) = Some t' ->
  Schema.get_tasks t' = Some tasks ->
  strptime "1970-01-01 00:00" = Some EPOCH ->
  reliable sink_raises ->
  length tasks = length (Schema.records t)
  /\ Forall (fun task =>
       notify_time task = "1970-01-01 00:00"
       /\ forall d tr, completed task = 0 -> strptime (deadline task) = Some d ->
            run (check_task strptime sink_raises now task) tr
            = (tr ++ deadline_part now d (name task), Returned ())) tasks.
Proof.
  intros Hrect Hnone Hinit Hget Hsentinel Hsink.
  apply init_db_some in Hinit as [Hcols Hrecs].
  assert (Hmiss : existsb (Schema.same_column "notify_time") (Schema.columns t) = false)
    by exact Hnone.
  assert (Hlisted : Schema.listed "notify_time" (Schema.columns t) = false).
  { destruct (Schema.listed "notify_time" (Schema.columns t)) eqn:E; [|reflexivity].
    apply listed_has_column in E. congruence. }
  assert (Hshape : exists rest,
            Schema.missing (Schema.columns t)
            = ("notify_time", Schema.VText "1970-01-01 00:00") :: rest).
  { unfold Schema.missing, Schema.MIGRATED. cbn [List.filter fst]. rewrite Hlisted.
    cbn [negb]. eauto. }
  destruct Hshape as [rest Hshape]. rewrite Hshape in Hcols, Hrecs. cbn [map fst snd] in Hcols, Hrecs.
  unfold Schema.get_tasks in Hget.
  destruct (forallb _ Schema.TASKS_COLUMNS); [|discriminate Hget].
  apply mapM_Some in Hget.
  split.
  { apply Forall2_length in Hget. rewrite <- Hget, Hrecs. apply length_map. }
  assert (Hcells : Forall (fun r' =>
            Schema.cell "notify_time" t' r' = Some (Schema.VText "1970-01-01 00:00"))
            (Schema.records t')).
  { rewrite Hrecs. apply List.Forall_map. eapply List.Forall_impl; [|exact Hrect].
    cbn beta. intros r Hlen. unfold Schema.cell. rewrite Hcols.
    rewrite column_index_app_miss by exact Hmiss.
    cbn [Schema.column_index]. replace (Schema.same_column "notify_time" "notify_time")
      with true by reflexivity.
    cbn [fmap option_fmap option_map mbind option_bind].
    apply list_lookup_middle. lia. }
  clear Hrecs. revert Hget Hcells. generalize (Schema.records t'). intros rs'0 Hget.
  induction Hget as [|r' task rs' tasks' Hrow _ IH]; intros Hcells;
    [constructor|].
  apply List.Forall_cons_iff in Hcells. destruct Hcells as [Hcell Hcells].
  constructor; [|now apply IH].
  assert (Hnotify : notify_time task = "1970-01-01 00:00").
  { unfold Schema.select_row in Hrow. rewrite Hcell in Hrow.
    repeat match type of Hrow with
           | (_ ≫= _) = Some _ =>
               let x := fresh "x" in let Hx := fresh "Hx" in
               apply bind_Some in Hrow as (x & Hx & Hrow)
           end.
    injection Hrow as <-. cbn [notify_time].
    cbn [mbind option_bind Schema.as_text] in *. congruence. }
  split; [exact Hnotify|]. intros d tr Hc Hd.
  rewrite (run_check_task_incomplete strptime sink_raises now task d EPOCH)
    by (try assumption; now rewrite Hnotify).
  unfold notification_part, notify_time_reached. now rewrite Z.ltb_irrefl, andb_false_r.
Qed.

(** ** The further theorems at the sample store *)

Lemma store_of_three_well_keyed : well_keyed store_of_three.
Proof.
  split.
  - repeat constructor; cbn; intuition discriminate.
  - repeat constructor; cbn; discriminate.
Defined.

Lemma store_keys_stay_unique_witness :
  well_keyed
    (exec_all [OpAdd "review" "2024-05-03 09:00" "2024-05-02 09:00" "Ann" "Lead" "Medium";
               OpDelete 1; OpUpdate 2 "call" "2024-05-01 12:10" "2024-05-01 11:00" "Bob" "Owner"
                             "Medium" 1;
               OpAdd "plan" "2024-05-04 09:00" "2024-05-03 09:00" "Ann" "Lead" "Low"]
       store_of_three).
Proof. apply store_keys_stay_unique. exact store_of_three_well_keyed. Defined.

Lemma add_task_appends_fresh_row_witness :
  get_tasks (add_task "plan" "2024-05-04 09:00" "2024-05-03 09:00" "Ann" "Lead" "Low"
               store_of_three)
  = get_tasks store_of_three
    ++ [mkTask 5 "plan" "2024-05-04 09:00" "2024-05-03 09:00" "Ann" "Lead" "Low" 0]
  /\ ~ In 5 (ids store_of_three).
Proof.
  destruct (add_task_appends_fresh_row "plan" "2024-05-04 09:00" "2024-05-03 09:00"
              "Ann" "Lead" "Low" store_of_three store_of_three_well_keyed) as (Hrows & Hfresh & _).
  split; [exact Hrows | exact Hfresh].
Defined.

Lemma deleted_key_never_reused_witness :
  4 <= seq store_of_three
  /\ ~ In 4 (ids (exec_all [OpAdd "plan" "2024-05-04 09:00" "2024-05-03 09:00" "Ann" "Lead" "Low"]
                    (delete_task 4 store_of_three))).
Proof.
  split; [discriminate|].
  apply (deleted_key_never_reused
           [OpAdd "plan" "2024-05-04 09:00" "2024-05-03 09:00" "Ann" "Lead" "Low"]
           4 store_of_three).
  discriminate.
Defined.

Lemma update_task_absent_key_witness :
  ~ In 3 (ids store_of_three)
  /\ update_task 3 "taxes" "2024-05-02 12:00" "2024-05-01 11:59" "Cy" "Clerk" "Low" 1
       store_of_three = store_of_three.
Proof.
  assert (Habsent : ~ In 3 (ids store_of_three)) by (cbn; intuition discriminate).
  split; [exact Habsent|]. now apply update_task_absent_key.
Defined.

Lemma update_task_replaces_row_witness :
  In 2 (ids store_of_three)
  /\ find_task 2 (update_task 2 "call back" "2024-05-01 13:00" "2024-05-01 12:30" "Bob" "Owner"
                    "High" 0 store_of_three)
     = Some (mkTask 2 "call back" "2024-05-01 13:00" "2024-05-01 12:30" "Bob" "Owner" "High" 0).
Proof.
  assert (Hin : In 2 (ids store_of_three)) by (right; left; reflexivity).
  split; [exact Hin|].
  exact (proj1 (update_task_replaces_row 2 "call back" "2024-05-01 13:00" "2024-05-01 12:30"
                  "Bob" "Owner" "High" 0 store_of_three Hin)).
Defined.

Lemma delete_task_removes_key_witness :
  find_task 2 (delete_task 2 store_of_three) = None
  /\ S (length (get_tasks (delete_task 2 store_of_three))) = length (get_tasks store_of_three).
Proof.
  destruct (delete_task_removes_key 2 store_of_three) as (Hgone & _ & _ & _ & _ & Hone).
  split; [exact Hgone|]. apply Hone; [exact (proj1 store_of_three_well_keyed)|].
  right; left; reflexivity.
Defined.

Lemma checkbox_toggle_round_trip_witness :
  In task_soon (get_tasks store_of_three)
  /\ completed task_soon = 0
  /\ find_task 2 (fst (on_checkbox true task_soon store_of_three))
     = Some (set_completed 1 task_soon)
  /\ fst (on_checkbox false (set_completed 1 task_soon)
            (fst (on_checkbox true task_soon store_of_three))) = store_of_three.
Proof.
  assert (Hin : In task_soon (get_tasks store_of_three)) by (right; left; reflexivity).
  destruct (checkbox_toggle_round_trip task_soon store_of_three
              (proj1 store_of_three_well_keyed) Hin eq_refl) as (Hset & _ & Hback & _).
  split; [exact Hin|]. split; [reflexivity|]. split; [exact Hset | exact Hback].
Defined.

Lemma ticked_task_is_silent_witness :
  get_tasks store_of_three = [task_late] ++ task_soon :: [task_done]
  /\ run (check_deadlines strptime_padded always_delivers noon
            (get_tasks (fst (on_checkbox true task_soon store_of_three)))) []
     = run (check_deadlines strptime_padded always_delivers noon ([task_late] ++ [task_done])) [].
Proof.
  split; [reflexivity|].
  exact (proj2 (ticked_task_is_silent strptime_padded always_delivers noon
                  [task_late] task_soon [task_done] store_of_three [] eq_refl
                  (proj1 store_of_three_well_keyed) eq_refl)).
Defined.

Lemma filter_tasks_idempotent_witness :
  filter_tasks strptime_padded noon [task_late; task_soon; task_far; task_done]
    "View Nearest Deadline Tasks (within 1 day)" = Returned [task_late; task_soon]
  /\ filter_tasks strptime_padded noon [task_late; task_soon]
       "View Nearest Deadline Tasks (within 1 day)" = Returned [task_late; task_soon].
Proof.
  split; [reflexivity|].
  apply (filter_tasks_idempotent strptime_padded noon
           [task_late; task_soon; task_far; task_done]).
  reflexivity.
Defined.

Lemma filter_tasks_sublist_witness :
  sublist [task_done] [task_late; task_soon; task_far; task_done].
Proof.
  apply (filter_tasks_sublist strptime_padded noon
           [task_late; task_soon; task_far; task_done] "View Completed Tasks" [task_done]).
  reflexivity.
Defined.

Lemma nearest_view_fails_on_unreadable_deadline_witness :
  exists before task after,
    [task_late; task_done; mkTask 7 "audit" "tomorrow" "1970-01-01 00:00" "Flo" "CFO" "Low" 0;
     task_soon] = before ++ task :: after
    /\ Forall (fun row => completed row = 0 -> is_Some (strptime_padded (deadline row))) before
    /\ completed task = 0
    /\ strptime_padded (deadline task) = None
    /\ ValueError "tomorrow" = ValueError (deadline task).
Proof.
  apply (proj2 (nearest_view_fails_on_unreadable_deadline strptime_padded noon
                  [task_late; task_done;
                   mkTask 7 "audit" "tomorrow" "1970-01-01 00:00" "Flo" "CFO" "Low" 0;
                   task_soon])).
  reflexivity.
Defined.



Lemma nearest_view_grows_with_time_witness :
  noon <= next_noon
  /\ sublist [task_late; task_soon] [task_late; task_soon; task_far].
Proof.
  split; [discriminate|].
  apply (nearest_view_grows_with_time strptime_padded noon next_noon
           [task_late; task_soon; task_far; task_done]);
    [discriminate | reflexivity | reflexivity].
Defined.

Lemma deleted_task_on_no_view_witness :
  Forall (fun row => task_id row <> task_id task_soon) [task_late; task_done].
Proof.
  apply (deleted_task_on_no_view strptime_padded noon task_soon store_of_three "All Tasks").
  reflexivity.
Defined.

Lemma readable_sample : Forall (readable strptime_padded) [task_late; task_soon; task_far; task_done].
Proof.
  repeat (constructor;
          [first [intros _; split; eexists; reflexivity | intros H; discriminate H]|]).
  constructor.
Defined.

Lemma pass_performs_contract_witness :
  run (check_deadlines strptime_padded always_delivers noon
         [task_late; task_soon; task_far; task_done]) []
  = ([] ++ pass_events strptime_padded noon [task_late; task_soon; task_far; task_done],
     Returned ()).
Proof.
  apply pass_performs_contract; [exact always_delivers_reliable | exact readable_sample].
Defined.

Lemma second_pass_repeats_reminders_witness :
  mk_datetime 2024 5 1 11 59 < noon
  /\ mk_datetime 2024 5 1 11 59 < next_noon
  /\ run (check_deadlines strptime_padded always_delivers next_noon
            [task_late; task_soon; task_far; task_done])
       (fst (run (check_deadlines strptime_padded always_delivers noon
                    [task_late; task_soon; task_far; task_done]) []))
     = ([] ++ pass_events strptime_padded noon [task_late; task_soon; task_far; task_done]
           ++ pass_events strptime_padded next_noon
                [task_late; task_soon; task_far; task_done],
        Returned ())
  /\ In (Notify TITLE_OVERDUE (overdue_message (name task_late)) 10)
        (pass_events strptime_padded next_noon [task_late; task_soon; task_far; task_done]).
Proof.
  split; [reflexivity|]. split; [reflexivity|].
  destruct (second_pass_repeats_reminders strptime_padded always_delivers noon next_noon
              [task_late; task_soon; task_far; task_done] task_late
              (mk_datetime 2024 5 1 11 59) [] always_delivers_reliable readable_sample
              (or_introl eq_refl) eq_refl eq_refl eq_refl eq_refl) as (Hrun & _ & Hagain).
  split; [exact Hrun | exact Hagain].
Defined.

Lemma quiet_task_calls_nothing_witness :
  timedelta_minutes 30 <= mk_datetime 2024 5 1 12 30 - noon
  /\ run (check_task strptime_padded always_raises noon task_quiet) [] = ([], Returned ()).
Proof.
  split; [discriminate|].
  apply (quiet_task_calls_nothing strptime_padded always_raises noon task_quiet
           (mk_datetime 2024 5 1 12 30) EPOCH []);
    [reflexivity | reflexivity | reflexivity | discriminate | right; discriminate].
Defined.

Lemma pass_adds_whole_reminders_witness :
  exists reminders : list (Reminder * Task),
    [Notify "Task Notification" "Task 'call' notification time reached!" 10;
     StInfo "Task 'call' notification time reached!";
     Notify "Task Deadline Approaching" "Task 'call' deadline is approaching!" 10;
     StInfo "Task 'call' deadline is approaching!"]
    = [] ++ reminders_events reminders
    /\ Forall (fun reminder => In (snd reminder) [task_soon; task_late; task_far]
                               /\ completed (snd reminder) = 0) reminders
    /\ (length reminders
        <= 2 * length (List.filter (fun task => negb (truthy (completed task)))
                         [task_soon; task_late; task_far]))%nat.
Proof.
  apply (pass_adds_whole_reminders strptime_padded fails_for_report noon
           [task_soon; task_late; task_far] [] _
           (Raised (NotifyError "Task Overdue!" "Task 'report' is overdue!"))).
  reflexivity.
Defined.

Lemma init_scheduler_only_adds_witness :
  exists n, (n <= 3)%nat
    /\ schedulers (init_all [1%nat; 2%nat; 1%nat] fresh_process)
       = [] ++ replicate n started_scheduler.
Proof.
  exact (proj1 (init_scheduler_only_adds [1%nat; 2%nat; 1%nat] fresh_process)).
Defined.

Lemma form_valid_is_valid : valid_form noon form_valid.
Proof. repeat split; discriminate. Defined.

Lemma submission_accepted_iff_valid_witness :
  length (get_tasks (fst (on_submit strftime_padded noon form_valid store_of_three)))
  = S (length (get_tasks store_of_three))
  /\ ~ valid_form noon form_past_deadline
  /\ length (get_tasks (fst (on_submit strftime_padded noon form_past_deadline store_of_three)))
     <> S (length (get_tasks store_of_three)).
Proof.
  assert (Hbad : ~ valid_form noon form_past_deadline).
  { intros (_ & _ & _ & Hle & _). now apply Hle. }
  split; [|split; [exact Hbad|]].
  - apply (submission_accepted_iff_valid strftime_padded noon form_valid store_of_three).
    exact form_valid_is_valid.
  - intros Hlen. apply Hbad.
    now apply (submission_accepted_iff_valid strftime_padded noon form_past_deadline
                 store_of_three).
Defined.

Lemma accepted_task_not_overdue_witness :
  exists task,
    get_tasks (fst (on_submit strftime_padded noon form_valid store_of_three))
    = get_tasks store_of_three ++ [task]
    /\ run (check_task strptime_padded always_delivers noon task) []
       = ([] ++ contract_events noon
                  (combine (notify_date form_valid) (notify_time_val form_valid))
                  (combine (deadline_date form_valid) (deadline_time form_valid))
                  (form_name form_valid), Returned ())
    /\ count_events TITLE_OVERDUE
         (contract_events noon
            (combine (notify_date form_valid) (notify_time_val form_valid))
            (combine (deadline_date form_valid) (deadline_time form_valid))
            (form_name form_valid)) = 0%nat.
Proof.
  apply (accepted_task_not_overdue strftime_padded strptime_padded always_delivers noon
           form_valid store_of_three []);
    [exact form_valid_is_valid | reflexivity | reflexivity | exact always_delivers_reliable].
Defined.

Lemma init_db_adds_missing_columns_witness :
  exists t',
    Schema.init_db (Some legacy_table) = Some t'
    /\ Schema.columns t'
       = Schema.columns legacy_table
         ++ map fst (Schema.missing (Schema.columns legacy_table))
    /\ Schema.has_column "completed" t' = Schema.has_column "completed" legacy_table.
Proof.
  destruct (Schema.init_db (Some legacy_table)) as [t'|] eqn:E; [|discriminate E].
  exists t'. split; [reflexivity|].
  destruct (init_db_adds_missing_columns legacy_table t' E) as (Hc & _ & _ & Hkeep).
  split; [exact Hc|]. apply Hkeep. cbn. tauto.
Defined.

Lemma init_db_idempotent_witness :
  exists t, Schema.init_db (Some legacy_table) = Some t /\ Schema.init_db (Some t) = Some t.
Proof.
  destruct (Schema.init_db (Some legacy_table)) as [t|] eqn:E; [|discriminate E].
  exists t. split; [reflexivity|]. exact (init_db_idempotent (Some legacy_table) t E).
Defined.

Lemma init_db_fails_on_case_variant_witness :
  Schema.listed "notify_time" (Schema.columns capital_table) = false
  /\ Schema.has_column "notify_time" capital_table = true
  /\ Schema.init_db (Some capital_table) = None.
Proof.
  split; [reflexivity|]. split; [reflexivity|].
  apply (proj1 (init_db_fails_on_case_variant capital_table)).
  exists "notify_time". split; [left; reflexivity | reflexivity].
Defined.

Lemma migrated_tasks_never_notified_witness :
  Schema.has_column "notify_time" legacy_table = false
  /\ Schema.init_db (Some legacy_table) ≫= Schema.get_tasks
     = Some [mkTask 1 "report" "2024-05-01 11:59" "1970-01-01 00:00" "" "" "Medium" 0;
             mkTask 2 "call" "2024-05-01 12:10" "1970-01-01 00:00" "" "" "Medium" 1]
  /\ Forall (fun task =>
       notify_time task = "1970-01-01 00:00"
       /\ forall d tr, completed task = 0 -> strptime_padded (deadline task) = Some d ->
            run (check_task strptime_padded always_delivers noon task) tr
            = (tr ++ deadline_part noon d (name task), Returned ()))
       [mkTask 1 "report" "2024-05-01 11:59" "1970-01-01 00:00" "" "" "Medium" 0;
        mkTask 2 "call" "2024-05-01 12:10" "1970-01-01 00:00" "" "" "Medium" 1].
Proof.
  split; [reflexivity|]. split; [reflexivity|].
  apply (migrated_tasks_never_notified strptime_padded always_delivers noon legacy_table
           (Schema.mkTable
              ["id"; "name"; "deadline"; "completed"; "notify_time"; "assigned_by";
               "designation"; "priority"]
              [[Schema.VInt 1; Schema.VText "report"; Schema.VText "2024-05-01 11:59";
                Schema.VInt 0; Schema.VText "1970-01-01 00:00"; Schema.VText "";
                Schema.VText ""; Schema.VText "Medium"];
               [Schema.VInt 2; Schema.VText "call"; Schema.VText "2024-05-01 12:10";
                Schema.VInt 1; Schema.VText "1970-01-01 00:00"; Schema.VText "";
                Schema.VText ""; Schema.VText "Medium"]]));
    [repeat constructor | reflexivity | reflexivity | reflexivity | reflexivity
    | exact always_delivers_reliable].
Defined.
